(** * libui unix/stddialogs.c: file choosers and message boxes over GTK

    A shallow embedding of [stddialogs.c].  The file is glue: every function
    is a fixed sequence of toolkit calls.  Its behaviour is therefore the
    list of calls it makes (with their arguments), the value it returns and
    what it does with the one piece of memory it manages itself, the pattern
    buffer of the filter loop. *)

From Stdlib Require Import ZArith List Lia Bool.
From Stdlib Require Import Strings.Byte.
From Stdlib Require Strings.String.
Import String.StringSyntax.
Delimit Scope string_scope with string.
Import ListNotations.
Local Open Scope Z_scope.

(** ** C data *)

Module C.

(** [int] is the 32-bit two's-complement integer of the ABIs GTK runs on.
    The conversion of a [size_t] to [int] is implementation-defined; GCC
    reduces the value modulo 2^32, which is [int_wrap]. *)
Definition INT_MAX : Z := 2147483647.
Definition INT_MIN : Z := -2147483648.

Definition int_wrap (z : Z) : Z :=
  (z + 2147483648) mod 4294967296 - 2147483648.

(** The sum of two [int]s.  C leaves it undefined when it is not an [int]
    itself ([None]). *)
Definition int_add (a b : Z) : option Z :=
  if (INT_MIN <=? a + b) && (a + b <=? INT_MAX) then Some (a + b) else None.

(** [size_t] is 64 bits wide. *)
Definition size_t_of_int (z : Z) : Z := z mod 18446744073709551616.

(** A [const char *] is modelled by the bytes found at the pointer.  The
    string it denotes ends before the first NUL (or with the bytes). *)
Definition cstring : Type := list byte.

Fixpoint cstr (m : list byte) : list byte :=
  match m with
  | [] => []
  | b :: m' => if Byte.eqb b x00 then [] else b :: cstr m'
  end.

Definition strlen (s : cstring) : Z := Z.of_nat (length (cstr s)).

(** A string literal of the source. *)
Definition lit (s : String.string) : cstring :=
  String.list_byte_of_string s.
Arguments lit s%_string.

End C.
Import C.

(** ** The toolkit interface used by the file *)

Definition handle : Type := nat.
Definition GtkWindow : Type := handle.
Definition gint : Type := Z.

Inductive GtkFileChooserAction : Type :=
| GTK_FILE_CHOOSER_ACTION_OPEN
| GTK_FILE_CHOOSER_ACTION_SAVE
| GTK_FILE_CHOOSER_ACTION_SELECT_FOLDER
| GTK_FILE_CHOOSER_ACTION_CREATE_FOLDER.

Inductive GtkMessageType : Type :=
| GTK_MESSAGE_INFO
| GTK_MESSAGE_WARNING
| GTK_MESSAGE_QUESTION
| GTK_MESSAGE_ERROR
| GTK_MESSAGE_OTHER.

Inductive GtkButtonsType : Type :=
| GTK_BUTTONS_NONE
| GTK_BUTTONS_OK
| GTK_BUTTONS_CLOSE
| GTK_BUTTONS_CANCEL
| GTK_BUTTONS_YES_NO
| GTK_BUTTONS_OK_CANCEL.

Inductive GtkDialogFlags : Type :=
| GTK_DIALOG_MODAL
| GTK_DIALOG_DESTROY_WITH_PARENT
| GTK_DIALOG_USE_HEADER_BAR.

Definition GTK_RESPONSE_ACCEPT : gint := -3.
Definition GTK_RESPONSE_CANCEL : gint := -6.

(** Modelled from the spec: [uiWindow] and [uiControlHandle] are declared in
    ui.h and uipriv_unix.h, outside this file.  The spec has a parent as a
    non-owning reference to a top-level window from which the native window
    can be derived; all that this file asks of it is the GTK window that
    [uiControlHandle] hands out. *)
Record uiWindow : Type := { window_widget : GtkWindow }.

(** Modelled from the spec: [uiFileTypeFilter] is declared in ui.h, outside
    this file.  The spec has it as a display name paired with an ordered
    sequence of extension strings; the code reads [name], [extensions] and
    [extensions_len].  An array passed as (pointer, length) is modelled by
    the list of its elements. *)
Record uiFileTypeFilter : Type := {
  name : cstring;
  extensions : list cstring
}.

(** Every call the file makes into the toolkit, libui or libc.  A string
    argument is recorded the way the callee reads it.  A call that creates
    an object records the handle it returned as its last argument. *)
Inductive call : Type :=
| uiControlHandle (w : uiWindow)
| gtk_file_chooser_dialog_new (title : option cstring)
    (parent : option GtkWindow) (mode : GtkFileChooserAction)
    (buttons : list (cstring * gint)) (fcd : handle)
| gtk_file_chooser_set_local_only (fc : handle) (v : bool)
| gtk_file_chooser_set_select_multiple (fc : handle) (v : bool)
| gtk_file_chooser_set_show_hidden (fc : handle) (v : bool)
| gtk_file_chooser_set_do_overwrite_confirmation (fc : handle) (v : bool)
| gtk_file_chooser_set_create_folders (fc : handle) (v : bool)
| gtk_file_filter_new (gfilter : handle)
| gtk_file_filter_set_name (gfilter : handle) (label : cstring)
| uiprivRealloc (old_size : nat) (new_size : nat)
| sprintf (room : nat) (output : list byte)
| gtk_file_filter_add_pattern (gfilter : handle) (pat : cstring)
| gtk_file_chooser_add_filter (fc gfilter : handle)
| uiprivFree
| gtk_dialog_run (dialog : handle)
| gtk_file_chooser_get_filename (fc : handle)
| gtk_widget_destroy (widget : handle)
| gtk_message_dialog_new (parent : option GtkWindow) (flags : GtkDialogFlags)
    (type : GtkMessageType) (buttons : GtkButtonsType) (message : cstring)
    (md : handle)
| gtk_message_dialog_format_secondary_text (md : handle) (text : cstring).

(** ** Runs *)

(** What a run takes from its surroundings: the next free object handle,
    what the user does with the dialog ([response] is what [gtk_dialog_run]
    returns, [filename] what [gtk_file_chooser_get_filename] reports, NULL
    being [None]) and the bytes found in newly allocated memory. *)
Record world : Type := {
  next_object : handle;
  response : gint;
  filename : option cstring;
  fresh_memory : nat -> byte
}.

(** A computation makes calls, then returns a value or stops ([None]) at a
    memory fault or at an operation that C leaves undefined, and leaves a
    world behind. *)
Definition M (A : Type) : Type := world -> list call * option A * world.

Definition ret {A} (a : A) : M A := fun w => ([], Some a, w).

Definition bind {A B} (m : M A) (k : A -> M B) : M B :=
  fun w =>
    match m w with
    | (l1, Some a, w1) =>
        match k a w1 with
        | (l2, r, w2) => (l1 ++ l2, r, w2)
        end
    | (l1, None, w1) => (l1, None, w1)
    end.

Notation "x <- m ;; k" := (bind m (fun x => k))
  (at level 61, m at next level, right associativity).
Notation "m ;; k" := (bind m (fun _ => k))
  (at level 61, right associativity).

Definition invoke (c : call) : M unit := fun w => ([c], Some tt, w).

Definition fault {A} (c : call) : M A := fun w => ([c], None, w).

(** The value of an operation where C defines one; where it does not, the
    run has no defined continuation. *)
Definition defined {A} (o : option A) : M A := fun w => ([], o, w).

Definition new_object (mk : handle -> call) : M handle :=
  fun w =>
    ([mk (next_object w)], Some (next_object w),
     {| next_object := S (next_object w);
        response := response w;
        filename := filename w;
        fresh_memory := fresh_memory w |}).

Definition dialog_run (dialog : handle) : M gint :=
  fun w => ([gtk_dialog_run dialog], Some (response w), w).

Definition chooser_get_filename (fc : handle) : M (option cstring) :=
  fun w => ([gtk_file_chooser_get_filename fc], Some (filename w), w).

Definition trace {A} (m : M A) (w : world) : list call := fst (fst (m w)).
Definition result {A} (m : M A) (w : world) : option A := snd (fst (m w)).
Definition after {A} (m : M A) (w : world) : world := snd (m w).

(** ** The pattern buffer *)

(** [pattern] is NULL ([None]) or a heap block, given by its bytes;
    [pattern_cap] is the [int] the code keeps beside it. *)
Record buffer : Type := {
  pattern : option (list byte);
  pattern_cap : Z
}.

Definition block_size (p : option (list byte)) : nat :=
  match p with
  | None => 0%nat
  | Some b => length b
  end.

(** [uiprivRealloc] belongs to libui's allocator, outside this file.  A
    block of the new size comes back; it keeps the bytes of the old block,
    and what the rest holds is left open: it is taken from the world. *)
Definition realloc (p : option (list byte)) (new_size : Z) : M (list byte) :=
  fun w =>
    let n := Z.to_nat (size_t_of_int new_size) in
    let old := match p with None => [] | Some b => b end in
    ([uiprivRealloc (block_size p) n],
     Some (map (fun k => nth k old (fresh_memory w k)) (seq 0 n)),
     w).

(** What [sprintf(_, "*.%s", ext)] writes: the two characters, the string
    and the terminating NUL. *)
Definition formatted (ext : cstring) : list byte :=
  lit "*." ++ cstr ext ++ [x00].

(** The write goes to the start of the block and leaves the bytes behind it
    alone.  Writing through NULL or past the end of the block is a fault. *)
Definition format_into (p : option (list byte)) (ext : cstring)
  : M (list byte) :=
  let out := formatted ext in
  match p with
  | Some b =>
      if (length out <=? length b)%nat
      then _ <- invoke (sprintf (length b) out) ;;
           ret (out ++ skipn (length out) b)
      else fault (sprintf (length b) out)
  | None => fault (sprintf 0 out)
  end.

(** ** stddialogs.c *)

Definition windowWindow (w : option uiWindow) : M (option GtkWindow) :=
  match w with
  | Some win => _ <- invoke (uiControlHandle win) ;;
                ret (Some (window_widget win))
  | None => ret None
  end.

(** The inner loop of [filedialog], over the extensions of one filter. *)
Fixpoint filedialog_extensions (fc gfilter : handle)
    (exts : list cstring) (buf : buffer) : M buffer :=
  match exts with
  | [] => ret buf
  | ext :: rest =>
      let ext_len := int_wrap (strlen ext) in
      size <- defined (int_add 3 ext_len) ;;
      buf <- (if size >? pattern_cap buf
              then p <- realloc (pattern buf) size ;;
                   ret {| pattern := Some p; pattern_cap := size |}
              else ret buf) ;;
      p <- format_into (pattern buf) ext ;;
      _ <- invoke (gtk_file_filter_add_pattern gfilter (cstr p)) ;;
      _ <- invoke (gtk_file_chooser_add_filter fc gfilter) ;;
      filedialog_extensions fc gfilter rest
        {| pattern := Some p; pattern_cap := pattern_cap buf |}
  end.

(** The outer loop, over the filters. *)
Fixpoint filedialog_filters (fc : handle)
    (filters : list uiFileTypeFilter) (buf : buffer) : M buffer :=
  match filters with
  | [] => ret buf
  | f :: rest =>
      gfilter <- new_object gtk_file_filter_new ;;
      _ <- invoke (gtk_file_filter_set_name gfilter (cstr (name f))) ;;
      buf <- filedialog_extensions fc gfilter (extensions f) buf ;;
      filedialog_filters fc rest buf
  end.

Definition filedialog (parent : option GtkWindow)
    (mode : GtkFileChooserAction) (confirm : cstring)
    (filters : list uiFileTypeFilter) : M (option cstring) :=
  fcd <- new_object
           (gtk_file_chooser_dialog_new None parent mode
              [(lit "_Cancel", GTK_RESPONSE_CANCEL);
               (confirm, GTK_RESPONSE_ACCEPT)]) ;;
  let fc := fcd in
  _ <- invoke (gtk_file_chooser_set_local_only fc false) ;;
  _ <- invoke (gtk_file_chooser_set_select_multiple fc false) ;;
  _ <- invoke (gtk_file_chooser_set_show_hidden fc true) ;;
  _ <- invoke (gtk_file_chooser_set_do_overwrite_confirmation fc true) ;;
  _ <- invoke (gtk_file_chooser_set_create_folders fc true) ;;
  buf <- filedialog_filters fc filters
           {| pattern := None; pattern_cap := 0 |} ;;
  _ <- (match pattern buf with
        | Some _ => invoke uiprivFree
        | None => ret tt
        end) ;;
  resp <- dialog_run fcd ;;
  if negb (resp =? GTK_RESPONSE_ACCEPT)
  then _ <- invoke (gtk_widget_destroy fcd) ;;
       ret None
  else fname <- chooser_get_filename fc ;;
       _ <- invoke (gtk_widget_destroy fcd) ;;
       ret fname.

Definition uiOpenFile (parent : option uiWindow) : M (option cstring) :=
  p <- windowWindow parent ;;
  filedialog p GTK_FILE_CHOOSER_ACTION_OPEN (lit "_Open") [].

Definition uiOpenFolder (parent : option uiWindow) : M (option cstring) :=
  p <- windowWindow parent ;;
  filedialog p GTK_FILE_CHOOSER_ACTION_SELECT_FOLDER (lit "_Open") [].

Definition uiSaveFile (parent : option uiWindow) : M (option cstring) :=
  p <- windowWindow parent ;;
  filedialog p GTK_FILE_CHOOSER_ACTION_SAVE (lit "_Save") [].

Definition uiSaveFile2 (parent : option uiWindow)
    (filters : list uiFileTypeFilter) : M (option cstring) :=
  p <- windowWindow parent ;;
  filedialog p GTK_FILE_CHOOSER_ACTION_SAVE (lit "_Save") filters.

Definition msgbox (parent : option GtkWindow) (title description : cstring)
    (type : GtkMessageType) (buttons : GtkButtonsType) : M unit :=
  md <- new_object
          (gtk_message_dialog_new parent GTK_DIALOG_MODAL type buttons
             (cstr title)) ;;
  _ <- invoke (gtk_message_dialog_format_secondary_text md
                 (cstr description)) ;;
  _ <- dialog_run md ;;
  invoke (gtk_widget_destroy md).

Definition uiMsgBox (parent : option uiWindow) (title description : cstring)
  : M unit :=
  p <- windowWindow parent ;;
  msgbox p title description GTK_MESSAGE_OTHER GTK_BUTTONS_OK.

Definition uiMsgBoxError (parent : option uiWindow)
    (title description : cstring) : M unit :=
  p <- windowWindow parent ;;
  msgbox p title description GTK_MESSAGE_ERROR GTK_BUTTONS_OK.

(** ** Reading a trace *)

(** The filter objects created, in order. *)
Fixpoint filter_objects (log : list call) : list handle :=
  match log with
  | [] => []
  | gtk_file_filter_new g :: l => g :: filter_objects l
  | _ :: l => filter_objects l
  end.

(** The [gtk_file_filter_set_name] calls: filter object and label. *)
Fixpoint name_calls (log : list call) : list (handle * cstring) :=
  match log with
  | [] => []
  | gtk_file_filter_set_name g s :: l => (g, s) :: name_calls l
  | _ :: l => name_calls l
  end.

(** The [gtk_file_filter_add_pattern] calls: filter object and pattern. *)
Fixpoint pattern_calls (log : list call) : list (handle * cstring) :=
  match log with
  | [] => []
  | gtk_file_filter_add_pattern g s :: l => (g, s) :: pattern_calls l
  | _ :: l => pattern_calls l
  end.

(** The [gtk_file_chooser_add_filter] calls: chooser and filter object. *)
Fixpoint entry_calls (log : list call) : list (handle * handle) :=
  match log with
  | [] => []
  | gtk_file_chooser_add_filter fc g :: l => (fc, g) :: entry_calls l
  | _ :: l => entry_calls l
  end.

(** GTK keeps a filter that is added again only once (and warns): the
    entries a chooser ends up with are the distinct objects added to it. *)
Fixpoint attached (seen : list handle) (entries : list (handle * handle))
  : list handle :=
  match entries with
  | [] => []
  | (_, g) :: l =>
      if existsb (Nat.eqb g) seen then attached seen l
      else g :: attached (g :: seen) l
  end.

Definition filter_entries (log : list call) : list handle :=
  attached [] (entry_calls log).

(** The windows whose handle was asked for. *)
Fixpoint dereferenced (log : list call) : list uiWindow :=
  match log with
  | [] => []
  | uiControlHandle win :: l => win :: dereferenced l
  | _ :: l => dereferenced l
  end.

(** The five switches of a file chooser that the file touches. *)
Inductive chooser_switch : Type :=
| local_only
| select_multiple
| show_hidden
| do_overwrite_confirmation
| create_folders.

Definition switch_set (fc : handle) (s : chooser_switch) (c : call)
  : option bool :=
  match c, s with
  | gtk_file_chooser_set_local_only fc' v, local_only
  | gtk_file_chooser_set_select_multiple fc' v, select_multiple
  | gtk_file_chooser_set_show_hidden fc' v, show_hidden
  | gtk_file_chooser_set_do_overwrite_confirmation fc' v,
      do_overwrite_confirmation
  | gtk_file_chooser_set_create_folders fc' v, create_folders =>
      if Nat.eqb fc' fc then Some v else None
  | _, _ => None
  end.

(** The value a switch was last set to ([None]: left at its default). *)
Definition configured (fc : handle) (s : chooser_switch) (log : list call)
  : option bool :=
  fold_left
    (fun acc c => match switch_set fc s c with Some v => Some v | None => acc end)
    log None.

(** The calls made before the dialog is run (all of them if it never is). *)
Fixpoint before_run (dialog : handle) (log : list call) : list call :=
  match log with
  | [] => []
  | gtk_dialog_run d :: l =>
      if Nat.eqb d dialog then [] else gtk_dialog_run d :: before_run dialog l
  | c :: l => c :: before_run dialog l
  end.

Definition shown (dialog : handle) (log : list call) : Prop :=
  In (gtk_dialog_run dialog) log.

(** A [sprintf] stays inside the block it writes to. *)
Definition in_bounds (c : call) : Prop :=
  match c with
  | sprintf room output => (length output <= room)%nat
  | _ => True
  end.

(** The calls of the filter loops of [filedialog]. *)
Definition loop_call (c : call) : bool :=
  match c with
  | gtk_file_filter_new _
  | gtk_file_filter_set_name _ _
  | uiprivRealloc _ _
  | sprintf _ _
  | gtk_file_filter_add_pattern _ _
  | gtk_file_chooser_add_filter _ _ => true
  | _ => false
  end.

(** The invariant of the pattern buffer: [pattern_cap] is the size of the
    block [pattern] points to. *)
Definition buffer_ok (buf : buffer) : Prop :=
  pattern_cap buf = Z.of_nat (block_size (pattern buf))
  /\ pattern_cap buf <= INT_MAX.

(** An extension whose pattern, with its terminator, has a size that is an
    [int]. *)
Definition fits (ext : cstring) : Prop := 3 + strlen ext <= INT_MAX.

Definition all_fit (filters : list uiFileTypeFilter) : Prop :=
  Forall (fun f => Forall fits (extensions f)) filters.

(** An extension for which the sum [3 + ext_len] of the code is an [int],
    so that C defines the test on it. *)
Definition size_defined (ext : cstring) : Prop :=
  int_wrap (strlen ext) <= INT_MAX - 3.

Definition all_defined (filters : list uiFileTypeFilter) : Prop :=
  Forall (fun f => Forall size_defined (extensions f)) filters.

(** The pattern of an extension in the spec's words: [*.] joined with the
    extension. *)
Definition glob (ext : cstring) : cstring := lit "*." ++ cstr ext.

(** The patterns a run should register: those of each filter on the object
    made for it ([g] being the first filter object). *)
Fixpoint expected_patterns (g : handle) (filters : list uiFileTypeFilter)
  : list (handle * cstring) :=
  match filters with
  | [] => []
  | f :: rest =>
      map (fun e => (g, glob e)) (extensions f) ++ expected_patterns (S g) rest
  end.

(** The [gtk_file_chooser_add_filter] calls of the loops: for each filter,
    one per extension. *)
Fixpoint entries_made (fc g : handle) (filters : list uiFileTypeFilter)
  : list (handle * handle) :=
  match filters with
  | [] => []
  | f :: rest =>
      map (fun _ => (fc, g)) (extensions f) ++ entries_made fc (S g) rest
  end.

(** The file choosers created: handle and mode. *)
Fixpoint choosers (log : list call) : list (handle * GtkFileChooserAction) :=
  match log with
  | [] => []
  | gtk_file_chooser_dialog_new _ _ mode _ fcd :: l => (fcd, mode) :: choosers l
  | _ :: l => choosers l
  end.

(** The window each dialog created was anchored to. *)
Fixpoint anchors (log : list call) : list (option GtkWindow) :=
  match log with
  | [] => []
  | gtk_file_chooser_dialog_new _ parent _ _ _ :: l => parent :: anchors l
  | gtk_message_dialog_new parent _ _ _ _ _ :: l => parent :: anchors l
  | _ :: l => anchors l
  end.

(** The same call, with the dialog it creates anchored to [p]. *)
Definition with_anchor (p : option GtkWindow) (c : call) : call :=
  match c with
  | gtk_file_chooser_dialog_new title _ mode buttons fcd =>
      gtk_file_chooser_dialog_new title p mode buttons fcd
  | gtk_message_dialog_new _ flags type buttons message md =>
      gtk_message_dialog_new p flags type buttons message md
  | _ => c
  end.

(** An operation that treats an absent parent like a present one: it does
    not ask an absent parent for its handle and anchors the dialog to NULL;
    with a parent it asks for the handle first, anchors the dialog to it and
    does the same otherwise. *)
Definition same_but_anchor {A} (op : option uiWindow -> M A) : Prop :=
  forall (win : uiWindow) (w : world),
    dereferenced (trace (op None) w) = []
    /\ anchors (trace (op None) w) = [None]
    /\ trace (op (Some win)) w
       = uiControlHandle win
         :: map (with_anchor (Some (window_widget win))) (trace (op None) w)
    /\ result (op (Some win)) w = result (op None) w
    /\ after (op (Some win)) w = after (op None) w.

(** The switches as the spec lists them for every file dialog: non-local
    files allowed, one selection, hidden files shown, overwrite confirmed,
    folders can be created. *)
Definition fixed_switches (s : chooser_switch) : bool :=
  match s with
  | local_only => false
  | select_multiple => false
  | show_hidden => true
  | do_overwrite_confirmation => true
  | create_folders => true
  end.

(** ** Sample inputs *)

Definition images : uiFileTypeFilter :=
  {| name := lit "Images"; extensions := [lit "jpeg"; lit "png"] |}.

Definition all_files : uiFileTypeFilter :=
  {| name := lit "All files"; extensions := [] |}.

(** An extension of 2147483645 bytes: with the two characters and the
    terminator its pattern takes one byte more than [INT_MAX]. *)
Definition oversize : cstring := repeat "a"%byte (Z.to_nat 2147483645).

Definition huge : uiFileTypeFilter :=
  {| name := lit "Huge"; extensions := [oversize] |}.

(** An extension of 2147483648 bytes, one more than [INT_MAX]: its length
    becomes the [int] [INT_MIN], and [3 + ext_len] is an [int]. *)
Definition beyond : cstring := repeat "a"%byte (Z.to_nat 2147483648).

Definition vast : uiFileTypeFilter :=
  {| name := lit "Vast"; extensions := [beyond] |}.

(** A user who cancels, and one who accepts with the toolkit reporting
    [path]. *)
Definition cancelling : world :=
  {| next_object := 1%nat; response := GTK_RESPONSE_CANCEL; filename := None;
     fresh_memory := fun _ => "U"%byte |}.

Definition accepting (path : cstring) : world :=
  {| next_object := 1%nat; response := GTK_RESPONSE_ACCEPT;
     filename := Some path; fresh_memory := fun _ => "U"%byte |}.

Definition main_window : uiWindow := {| window_widget := 0%nat |}.

(** ** More readings of a trace *)

(** The dialogs run, the widgets destroyed and the choosers asked for their
    filename, in order. *)
Fixpoint run_calls (log : list call) : list handle :=
  match log with
  | [] => []
  | gtk_dialog_run d :: l => d :: run_calls l
  | _ :: l => run_calls l
  end.

Fixpoint destroy_calls (log : list call) : list handle :=
  match log with
  | [] => []
  | gtk_widget_destroy d :: l => d :: destroy_calls l
  | _ :: l => destroy_calls l
  end.

Fixpoint filename_queries (log : list call) : list handle :=
  match log with
  | [] => []
  | gtk_file_chooser_get_filename fc :: l => fc :: filename_queries l
  | _ :: l => filename_queries l
  end.

(** The [uiprivRealloc] calls: size of the old block and size asked for. *)
Fixpoint realloc_calls (log : list call) : list (nat * nat) :=
  match log with
  | [] => []
  | uiprivRealloc old new :: l => (old, new) :: realloc_calls l
  | _ :: l => realloc_calls l
  end.

(** The number of [uiprivFree] calls. *)
Fixpoint free_calls (log : list call) : nat :=
  match log with
  | [] => 0%nat
  | uiprivFree :: l => S (free_calls l)
  | _ :: l => free_calls l
  end.

(** The calls made after the buffer was freed (none if it never was). *)
Fixpoint after_free (log : list call) : list call :=
  match log with
  | [] => []
  | uiprivFree :: l => l
  | _ :: l => after_free l
  end.

(** A call that touches the pattern buffer. *)
Definition buffer_call (c : call) : bool :=
  match c with
  | uiprivRealloc _ _ | sprintf _ _ | uiprivFree => true
  | _ => false
  end.

(** A chain of reallocations of one block that starts at [size]: each takes
    the block as the one before left it and makes it strictly larger. *)
Fixpoint grows_from (size : nat) (l : list (nat * nat)) : Prop :=
  match l with
  | [] => True
  | (old, new) :: l' => old = size /\ (size < new)%nat /\ grows_from new l'
  end.

(** All extensions of a list of filters, in the order of the loops. *)
Definition all_extensions (filters : list uiFileTypeFilter) : list cstring :=
  concat (map extensions filters).

(** The size a block of [size] bytes has grown to once the patterns of
    [exts] have been formatted into it. *)
Definition grown (size : nat) (exts : list cstring) : nat :=
  fold_left (fun s e => Nat.max s (length (formatted e))) exts size.

(** How often a filter object was handed to a chooser. *)
Definition times_added (g : handle) (log : list call) : nat :=
  length (filter (fun e => Nat.eqb (snd e) g) (entry_calls log)).

(** Two worlds in which the toolkit and the user behave alike; they may
    differ in what newly allocated memory holds. *)
Definition same_user (w w' : world) : Prop :=
  next_object w = next_object w'
  /\ response w = response w'
  /\ filename w = filename w'.

(** Two states of the pattern buffer that differ at most in the bytes of
    the block. *)
Definition same_shape (buf buf' : buffer) : Prop :=
  pattern_cap buf = pattern_cap buf'
  /\ block_size (pattern buf) = block_size (pattern buf')
  /\ (pattern buf = None <-> pattern buf' = None).

(** A world like [cancelling] whose allocator hands out other bytes. *)
Definition cancelling_dirty : world :=
  {| next_object := 1%nat; response := GTK_RESPONSE_CANCEL; filename := None;
     fresh_memory := fun k => if Nat.even k then "*"%byte else x00 |}.

(** The way a dialog [d] ends: it is run once, after every other call but
    those of [tail], and destroyed once, as the last call. *)
Definition closes (d : handle) (tail : list call) (log : list call) : Prop :=
  log = before_run d log ++ gtk_dialog_run d :: tail ++ [gtk_widget_destroy d]
  /\ run_calls log = [d]
  /\ destroy_calls log = [d].

(** The buttons the file choosers were created with: label and response
    code. *)
Fixpoint chooser_buttons (log : list call) : list (cstring * gint) :=
  match log with
  | [] => []
  | gtk_file_chooser_dialog_new _ _ _ buttons _ :: l =>
      buttons ++ chooser_buttons l
  | _ :: l => chooser_buttons l
  end.

(** What pressing a button must lead to: the [confirm] button to the path
    the toolkit reports, any other button to NULL. *)
Definition outcome_of (confirm label : cstring) (w : world)
    (r : option (option cstring)) : Prop :=
  (label = confirm /\ r = Some (filename w))
  \/ (label <> confirm /\ r = Some None).

(** ** The monad *)

Lemma trace_bind {A B} (m : M A) (k : A -> M B) w :
  trace (bind m k) w =
  trace m w ++ match result m w with
               | Some a => trace (k a) (after m w)
               | None => []
               end.
Proof.
  unfold trace, result, after, bind.
  destruct (m w) as [[l1 [a|]] w1]; simpl.
  - destruct (k a w1) as [[l2 r] w2]. reflexivity.
  - now rewrite app_nil_r.
Qed.

Lemma result_bind {A B} (m : M A) (k : A -> M B) w :
  result (bind m k) w =
  match result m w with
  | Some a => result (k a) (after m w)
  | None => None
  end.
Proof.
  unfold result, after, bind.
  destruct (m w) as [[l1 [a|]] w1]; simpl; [|reflexivity].
  destruct (k a w1) as [[l2 r] w2]. reflexivity.
Qed.

Lemma after_bind {A B} (m : M A) (k : A -> M B) w :
  after (bind m k) w =
  match result m w with
  | Some a => after (k a) (after m w)
  | None => after m w
  end.
Proof.
  unfold result, after, bind.
  destruct (m w) as [[l1 [a|]] w1]; simpl; [|reflexivity].
  destruct (k a w1) as [[l2 r] w2]. reflexivity.
Qed.

(** ** C integers and strings *)

Lemma int_wrap_range z : INT_MIN <= int_wrap z <= INT_MAX.
Proof.
  unfold int_wrap, INT_MIN, INT_MAX.
  pose proof (Z.mod_pos_bound (z + 2147483648) 4294967296 eq_refl). lia.
Qed.

Lemma int_wrap_small z : INT_MIN <= z <= INT_MAX -> int_wrap z = z.
Proof.
  unfold int_wrap, INT_MIN, INT_MAX. intros H.
  rewrite Z.mod_small by lia. lia.
Qed.

Lemma strlen_nonneg s : 0 <= strlen s.
Proof. unfold strlen. lia. Qed.

Lemma int_add_defined a b :
  INT_MIN <= a + b <= INT_MAX -> int_add a b = Some (a + b).
Proof.
  intros [H1 H2]. unfold int_add.
  apply Z.leb_le in H1. apply Z.leb_le in H2. now rewrite H1, H2.
Qed.

Lemma int_add_undefined a b : INT_MAX < a + b -> int_add a b = None.
Proof.
  intros H. unfold int_add. apply Z.leb_gt in H.
  now rewrite H, andb_false_r.
Qed.

Lemma size_of_fitting ext :
  fits ext -> int_add 3 (int_wrap (strlen ext)) = Some (3 + strlen ext).
Proof.
  unfold fits. intros H. pose proof (strlen_nonneg ext).
  assert (B : INT_MIN <= strlen ext <= INT_MAX)
    by (unfold INT_MIN, INT_MAX in *; lia).
  rewrite (int_wrap_small _ B). apply int_add_defined.
  unfold INT_MIN, INT_MAX in *. lia.
Qed.

Lemma cstr_stops s rest : cstr (cstr s ++ x00 :: rest) = cstr s.
Proof.
  induction s as [|b s IH]; simpl; [reflexivity|].
  destruct (Byte.eqb b x00) eqn:E; simpl; [reflexivity|].
  now rewrite E, IH.
Qed.


Lemma cstr_repeat b n : Byte.eqb b x00 = false -> cstr (repeat b n) = repeat b n.
Proof.
  intros E. induction n as [|n IH]; simpl; [reflexivity|].
  now rewrite E, IH.
Qed.

Lemma length_formatted ext :
  Z.of_nat (length (formatted ext)) = 3 + strlen ext.
Proof.
  unfold formatted, strlen. rewrite !length_app.
  change (length (lit "*.")) with 2%nat.
  change (length [x00]) with 1%nat. lia.
Qed.

(** Whatever the block held, the string read back from it after the write
    is the pattern: the bytes behind the terminator are never seen. *)
Lemma cstr_formatted ext stale : cstr (formatted ext ++ stale) = glob ext.
Proof.
  unfold formatted, glob. rewrite <- !app_assoc.
  change (lit "*.") with ["*"; "."]%byte. simpl.
  now rewrite cstr_stops.
Qed.

Lemma length_glob ext : Z.of_nat (length (glob ext)) = 2 + strlen ext.
Proof.
  unfold glob, strlen. rewrite length_app.
  change (length (lit "*.")) with 2%nat. lia.
Qed.

(** ** Views and concatenation *)

Lemma pattern_calls_app l1 l2 :
  pattern_calls (l1 ++ l2) = pattern_calls l1 ++ pattern_calls l2.
Proof.
  induction l1 as [|c l1 IH]; simpl; [reflexivity|].
  destruct c; simpl; now rewrite ?IH.
Qed.

Lemma entry_calls_app l1 l2 :
  entry_calls (l1 ++ l2) = entry_calls l1 ++ entry_calls l2.
Proof.
  induction l1 as [|c l1 IH]; simpl; [reflexivity|].
  destruct c; simpl; now rewrite ?IH.
Qed.

Lemma name_calls_app l1 l2 :
  name_calls (l1 ++ l2) = name_calls l1 ++ name_calls l2.
Proof.
  induction l1 as [|c l1 IH]; simpl; [reflexivity|].
  destruct c; simpl; now rewrite ?IH.
Qed.

Lemma filter_objects_app l1 l2 :
  filter_objects (l1 ++ l2) = filter_objects l1 ++ filter_objects l2.
Proof.
  induction l1 as [|c l1 IH]; simpl; [reflexivity|].
  destruct c; simpl; now rewrite ?IH.
Qed.

Lemma dereferenced_app l1 l2 :
  dereferenced (l1 ++ l2) = dereferenced l1 ++ dereferenced l2.
Proof.
  induction l1 as [|c l1 IH]; simpl; [reflexivity|].
  destruct c; simpl; now rewrite ?IH.
Qed.

Lemma dereferenced_loop l :
  Forall (fun c => loop_call c = true) l -> dereferenced l = [].
Proof.
  induction 1 as [|c l Hc _ IH]; simpl; [reflexivity|].
  destruct c; simpl in *; try discriminate; exact IH.
Qed.

Lemma configured_loop fc s l acc :
  Forall (fun c => loop_call c = true) l ->
  fold_left
    (fun acc c => match switch_set fc s c with Some v => Some v | None => acc end)
    l acc = acc.
Proof.
  intros H. revert acc. induction H as [|c l Hc _ IH]; intros acc; simpl.
  - reflexivity.
  - rewrite IH. destruct c, s; simpl in *; try discriminate; reflexivity.
Qed.

Lemma before_run_loop d l tail :
  Forall (fun c => loop_call c = true) l ->
  before_run d (l ++ tail) = l ++ before_run d tail.
Proof.
  induction 1 as [|c l Hc _ IH]; simpl; [reflexivity|].
  destruct c; simpl in *; try discriminate; now rewrite IH.
Qed.

Lemma not_shown_loop d l :
  Forall (fun c => loop_call c = true) l -> ~ shown d l.
Proof.
  unfold shown. intros H Hin. rewrite Forall_forall in H.
  apply H in Hin. discriminate.
Qed.

(** ** The filter loops *)

Ltac run :=
  repeat (rewrite ?trace_bind, ?result_bind, ?after_bind;
          cbn [trace result after invoke ret fault defined realloc
               dialog_run chooser_get_filename new_object fst snd app
               pattern pattern_cap]).

Lemma format_into_calls p ext w :
  Forall (fun c => loop_call c = true) (trace (format_into p ext) w).
Proof.
  unfold format_into. destruct p as [b|].
  - destruct (_ <=? _)%nat; run; repeat constructor.
  - repeat constructor.
Qed.

Lemma format_into_after p ext w : after (format_into p ext) w = w.
Proof.
  unfold format_into. destruct p as [b|]; [|reflexivity].
  destruct (_ <=? _)%nat; run; reflexivity.
Qed.

Lemma filedialog_extensions_calls fc g exts : forall buf w,
  Forall (fun c => loop_call c = true)
    (trace (filedialog_extensions fc g exts buf) w).
Proof.
  induction exts as [|ext rest IH]; intros buf w; cbn [filedialog_extensions].
  - constructor.
  - destruct (int_add 3 (int_wrap (strlen ext))) as [size|]; run;
      [|constructor].
    destruct (_ >? _); run.
    + constructor; [reflexivity|].
      apply Forall_app; split; [apply format_into_calls|].
      destruct (result (format_into _ _) _); [|constructor].
      run. repeat (constructor; [reflexivity|]). apply IH.
    + apply Forall_app; split; [apply format_into_calls|].
      destruct (result (format_into _ _) _); [|constructor].
      run. repeat (constructor; [reflexivity|]). apply IH.
Qed.

Lemma filedialog_extensions_after fc g exts : forall buf w,
  after (filedialog_extensions fc g exts buf) w = w.
Proof.
  induction exts as [|ext rest IH]; intros buf w; cbn [filedialog_extensions].
  - reflexivity.
  - destruct (int_add 3 (int_wrap (strlen ext))) as [size|]; run;
      [|reflexivity].
    destruct (_ >? _); run; rewrite format_into_after;
      (destruct (result (format_into _ _) _); [|reflexivity]);
      run; apply IH.
Qed.

Lemma filedialog_filters_calls fc filters : forall buf w,
  Forall (fun c => loop_call c = true)
    (trace (filedialog_filters fc filters buf) w).
Proof.
  induction filters as [|f rest IH]; intros buf w; cbn [filedialog_filters].
  - constructor.
  - run. repeat (constructor; [reflexivity|]).
    apply Forall_app; split; [apply filedialog_extensions_calls|].
    destruct (result (filedialog_extensions _ _ _ _) _); [|constructor].
    apply IH.
Qed.

Lemma format_into_ok b ext w :
  (length (formatted ext) <= length b)%nat ->
  trace (format_into (Some b) ext) w = [sprintf (length b) (formatted ext)]
  /\ result (format_into (Some b) ext) w
     = Some (formatted ext ++ skipn (length (formatted ext)) b).
Proof.
  intros H. unfold format_into.
  destruct (Nat.leb_spec (length (formatted ext)) (length b)); [|lia].
  split; reflexivity.
Qed.

Lemma length_overwritten (out b : list byte) :
  (length out <= length b)%nat ->
  length (out ++ skipn (length out) b) = length b.
Proof. intros H. rewrite length_app, length_skipn. lia. Qed.

Lemma filedialog_extensions_ok fc g exts : forall buf w,
  buffer_ok buf -> Forall fits exts ->
  exists buf',
    result (filedialog_extensions fc g exts buf) w = Some buf' /\
    buffer_ok buf' /\
    pattern_calls (trace (filedialog_extensions fc g exts buf) w)
      = map (fun e => (g, glob e)) exts /\
    entry_calls (trace (filedialog_extensions fc g exts buf) w)
      = map (fun _ => (fc, g)) exts /\
    Forall in_bounds (trace (filedialog_extensions fc g exts buf) w) /\
    filter_objects (trace (filedialog_extensions fc g exts buf) w) = [] /\
    name_calls (trace (filedialog_extensions fc g exts buf) w) = [].
Proof.
  induction exts as [|ext rest IH]; intros buf w Hbuf Hfit;
    cbn [filedialog_extensions].
  - exists buf. split; [|split; [|split; [|split; [|split; [|split]]]]];
      try reflexivity; try assumption. constructor.
  - inversion Hfit as [|? ? Hext Hrest]; subst.
    rewrite (size_of_fitting _ Hext). run.
    pose proof (length_formatted ext) as Hlen.
    pose proof (strlen_nonneg ext) as Hpos.
    destruct Hbuf as [Hcap Hmax]. unfold fits in Hext.
    destruct (Z.gtb_spec (3 + strlen ext) (pattern_cap buf)) as [Hgrow|Hroom].
    + (* the block is grown to 3 + ext_len bytes *)
      set (b1 := map (fun k => nth k match pattern buf with
                                     | None => []
                                     | Some b => b
                                     end (fresh_memory w k))
                     (seq 0 (Z.to_nat (size_t_of_int (3 + strlen ext))))).
      assert (Hb1 : Z.of_nat (length b1) = 3 + strlen ext).
      { subst b1. rewrite length_map, length_seq.
        unfold size_t_of_int, INT_MAX in *. rewrite Z.mod_small by lia. lia. }
      assert (Hroom : (length (formatted ext) <= length b1)%nat) by lia.
      destruct (IH {| pattern := Some (formatted ext
                                        ++ skipn (length (formatted ext)) b1);
                      pattern_cap := 3 + strlen ext |} w)
        as (buf' & Hres & Hok & Hpat & Hent & Hin & Hobj & Hnam); [|assumption|].
      { split; cbn [pattern pattern_cap block_size];
          [rewrite length_overwritten by assumption; lia | assumption]. }
      exists buf'. run. fold b1.
      destruct (format_into_ok _ _ w Hroom) as [-> ->].
      rewrite format_into_after. run. cbn [pattern pattern_cap].
      split; [|split; [|split; [|split; [|split; [|split]]]]]; try assumption.
      * cbn [pattern_calls app]. now rewrite cstr_formatted, Hpat.
      * cbn [entry_calls app]. now rewrite Hent.
      * repeat (constructor; [cbn [in_bounds]; auto|]). exact Hin.
    + (* the block is large enough as it is *)
      destruct (pattern buf) as [b|] eqn:Hp;
        cbn [block_size] in Hcap; [|lia].
      assert (Hfits : (length (formatted ext) <= length b)%nat) by lia.
      destruct (IH {| pattern := Some (formatted ext
                                        ++ skipn (length (formatted ext)) b);
                      pattern_cap := pattern_cap buf |} w)
        as (buf' & Hres & Hok & Hpat & Hent & Hin & Hobj & Hnam); [|assumption|].
      { split; cbn [pattern pattern_cap block_size];
          [rewrite length_overwritten by assumption; lia | assumption]. }
      exists buf'. run. rewrite Hp.
      destruct (format_into_ok _ _ w Hfits) as [-> ->].
      rewrite format_into_after. run.
      split; [|split; [|split; [|split; [|split; [|split]]]]]; try assumption.
      * cbn [pattern_calls app]. now rewrite cstr_formatted, Hpat.
      * cbn [entry_calls app]. now rewrite Hent.
      * repeat (constructor; [cbn [in_bounds]; auto|]). exact Hin.
Qed.


Lemma filedialog_filters_ok fc filters : forall buf w,
  buffer_ok buf -> all_fit filters ->
  exists buf',
    result (filedialog_filters fc filters buf) w = Some buf' /\
    buffer_ok buf' /\
    pattern_calls (trace (filedialog_filters fc filters buf) w)
      = expected_patterns (next_object w) filters /\
    entry_calls (trace (filedialog_filters fc filters buf) w)
      = entries_made fc (next_object w) filters /\
    Forall in_bounds (trace (filedialog_filters fc filters buf) w) /\
    filter_objects (trace (filedialog_filters fc filters buf) w)
      = seq (next_object w) (length filters) /\
    name_calls (trace (filedialog_filters fc filters buf) w)
      = combine (seq (next_object w) (length filters))
          (map (fun f => cstr (name f)) filters).
Proof.
  induction filters as [|f rest IH]; intros buf w Hbuf Hfit;
    cbn [filedialog_filters].
  - exists buf. split; [|split; [|split; [|split; [|split; [|split]]]]];
      try reflexivity; try assumption. constructor.
  - inversion Hfit as [|? ? Hf Hrest]; subst.
    set (w1 := {| next_object := S (next_object w); response := response w;
                  filename := filename w; fresh_memory := fresh_memory w |}).
    destruct (filedialog_extensions_ok fc (next_object w) (extensions f)
                buf w1 Hbuf Hf)
      as (buf1 & Hres1 & Hok1 & Hpat1 & Hent1 & Hin1 & Hobj1 & Hnam1).
    destruct (IH buf1 w1 Hok1 Hrest)
      as (buf' & Hres & Hok & Hpat & Hent & Hin & Hobj & Hnam).
    exists buf'. run. fold w1.
    rewrite Hres1, filedialog_extensions_after.
    split; [|split; [|split; [|split; [|split; [|split]]]]];
      try assumption.
    + cbn [pattern_calls expected_patterns].
      now rewrite pattern_calls_app, Hpat1, Hpat.
    + cbn [entry_calls entries_made].
      now rewrite entry_calls_app, Hent1, Hent.
    + repeat (constructor; [exact I|]). apply Forall_app. now split.
    + cbn [filter_objects length seq].
      now rewrite filter_objects_app, Hobj1, Hobj.
    + cbn [name_calls length seq map combine].
      now rewrite name_calls_app, Hnam1, Hnam.
Qed.

Lemma filedialog_filters_after fc filters : forall buf w,
  response (after (filedialog_filters fc filters buf) w) = response w
  /\ filename (after (filedialog_filters fc filters buf) w) = filename w.
Proof.
  induction filters as [|f rest IH]; intros buf w; cbn [filedialog_filters].
  - split; reflexivity.
  - run. rewrite filedialog_extensions_after.
    destruct (result (filedialog_extensions _ _ _ _) _) as [buf1|].
    + destruct (IH buf1 {| next_object := S (next_object w);
                           response := response w;
                           filename := filename w;
                           fresh_memory := fresh_memory w |}) as [-> ->].
      split; reflexivity.
    + split; reflexivity.
Qed.

(** ** The shape of a [filedialog] run *)

Lemma filedialog_trace parent mode confirm filters w :
  let fcd := next_object w in
  let w1 := {| next_object := S (next_object w); response := response w;
               filename := filename w; fresh_memory := fresh_memory w |} in
  let loop := filedialog_filters fcd filters
                {| pattern := None; pattern_cap := 0 |} in
  trace (filedialog parent mode confirm filters) w =
    [gtk_file_chooser_dialog_new None parent mode
       [(lit "_Cancel", GTK_RESPONSE_CANCEL); (confirm, GTK_RESPONSE_ACCEPT)]
       fcd;
     gtk_file_chooser_set_local_only fcd false;
     gtk_file_chooser_set_select_multiple fcd false;
     gtk_file_chooser_set_show_hidden fcd true;
     gtk_file_chooser_set_do_overwrite_confirmation fcd true;
     gtk_file_chooser_set_create_folders fcd true]
    ++ trace loop w1
    ++ match result loop w1 with
       | None => []
       | Some buf =>
           match pattern buf with Some _ => [uiprivFree] | None => [] end
           ++ gtk_dialog_run fcd
           :: (if response w =? GTK_RESPONSE_ACCEPT
               then [gtk_file_chooser_get_filename fcd] else [])
           ++ [gtk_widget_destroy fcd]
       end.
Proof.
  cbv zeta. unfold filedialog. run. do 7 f_equal.
  destruct (filedialog_filters_after (next_object w) filters
              {| pattern := None; pattern_cap := 0 |}
              {| next_object := S (next_object w); response := response w;
                 filename := filename w; fresh_memory := fresh_memory w |})
    as [Hr _].
  cbn [response] in Hr.
  destruct (result _ _) as [buf|]; [|reflexivity].
  destruct (pattern buf); run; rewrite Hr;
    destruct (response w =? GTK_RESPONSE_ACCEPT); cbn [negb]; run;
    reflexivity.
Qed.

Lemma filedialog_result parent mode confirm filters w :
  let w1 := {| next_object := S (next_object w); response := response w;
               filename := filename w; fresh_memory := fresh_memory w |} in
  let loop := filedialog_filters (next_object w) filters
                {| pattern := None; pattern_cap := 0 |} in
  result (filedialog parent mode confirm filters) w =
    match result loop w1 with
    | None => None
    | Some _ =>
        Some (if response w =? GTK_RESPONSE_ACCEPT then filename w else None)
    end.
Proof.
  cbv zeta. unfold filedialog. run.
  destruct (filedialog_filters_after (next_object w) filters
              {| pattern := None; pattern_cap := 0 |}
              {| next_object := S (next_object w); response := response w;
                 filename := filename w; fresh_memory := fresh_memory w |})
    as [Hr Hf].
  cbn [response filename] in Hr, Hf.
  destruct (result _ _) as [buf|]; [|reflexivity].
  destruct (pattern buf); run; rewrite Hr;
    destruct (response w =? GTK_RESPONSE_ACCEPT); cbn [negb]; run;
    rewrite ?Hf; reflexivity.
Qed.

(** ** The exported operations *)

Lemma windowWindow_trace {A} parent (k : option GtkWindow -> M A) w :
  trace (bind (windowWindow parent) k) w
  = match parent with Some win => [uiControlHandle win] | None => [] end
    ++ trace (k (option_map window_widget parent)) w.
Proof. destruct parent; unfold windowWindow; run; reflexivity. Qed.

Lemma windowWindow_result {A} parent (k : option GtkWindow -> M A) w :
  result (bind (windowWindow parent) k) w
  = result (k (option_map window_widget parent)) w.
Proof. destruct parent; unfold windowWindow; run; reflexivity. Qed.

Lemma windowWindow_after {A} parent (k : option GtkWindow -> M A) w :
  after (bind (windowWindow parent) k) w
  = after (k (option_map window_widget parent)) w.
Proof. destruct parent; unfold windowWindow; run; reflexivity. Qed.


(** Before it is run, the chooser of any [filedialog] call has had each of
    the five switches set to its fixed value. *)
Lemma filedialog_configured parent mode confirm filters w s :
  configured (next_object w) s
    (before_run (next_object w)
       (trace (filedialog parent mode confirm filters) w))
  = Some (fixed_switches s).
Proof.
  rewrite filedialog_trace. cbn [app before_run].
  rewrite before_run_loop by apply filedialog_filters_calls.
  set (tail := before_run _ _).
  assert (Ht : tail = [] \/ tail = [uiprivFree]).
  { subst tail. destruct (result _ _) as [buf|]; [|now left].
    destruct (pattern buf); cbn [app before_run]; rewrite Nat.eqb_refl;
      [now right | now left]. }
  rewrite !app_comm_cons. unfold configured.
  destruct Ht as [-> | ->]; rewrite fold_left_app; cbn [fold_left];
    rewrite configured_loop by apply filedialog_filters_calls;
    destruct s; cbn [switch_set]; rewrite Nat.eqb_refl; reflexivity.
Qed.

Lemma filedialog_choosers parent mode confirm filters w :
  choosers (trace (filedialog parent mode confirm filters) w)
  = [(next_object w, mode)].
Proof.
  rewrite filedialog_trace. cbn [app choosers]. f_equal.
  assert (L : forall l, Forall (fun c => loop_call c = true) l ->
                        forall t, choosers (l ++ t) = choosers t).
  { induction 1 as [|c l Hc _ IH]; intros t; [reflexivity|].
    destruct c; cbn in *; try discriminate; apply IH. }
  rewrite L by apply filedialog_filters_calls.
  destruct (result _ _) as [buf|]; [|reflexivity].
  destruct (pattern buf), (response w =? GTK_RESPONSE_ACCEPT); reflexivity.
Qed.

Lemma configured_after_handle fc s parent log :
  configured fc s
    (before_run fc
       (match parent with Some win => [uiControlHandle win] | None => [] end
        ++ log))
  = configured fc s (before_run fc log).
Proof. destruct parent; reflexivity. Qed.

Lemma choosers_after_handle (parent : option uiWindow) log :
  choosers
    (match parent with Some win => [uiControlHandle win] | None => [] end
     ++ log)
  = choosers log.
Proof. destruct parent; reflexivity. Qed.

(** C9. Every file dialog, whatever its mode (open file, select folder,
    save, save with filters), has been given the same five settings by the
    time it is run: non-local files allowed, multiple selection off, hidden
    files shown, overwrite confirmation on and folder creation on.  The
    open-file and select-folder dialogs get the overwrite and create-folder
    settings like the save dialogs. *)
Theorem file_dialogs_share_fixed_switches
    (parent : option uiWindow) (filters : list uiFileTypeFilter)
    (w : world) (s : chooser_switch) :
  let fcd := next_object w in
  let at_run (log : list call) := configured fcd s (before_run fcd log) in
  (choosers (trace (uiOpenFile parent) w)
     = [(fcd, GTK_FILE_CHOOSER_ACTION_OPEN)]
   /\ at_run (trace (uiOpenFile parent) w) = Some (fixed_switches s))
  /\ (choosers (trace (uiOpenFolder parent) w)
        = [(fcd, GTK_FILE_CHOOSER_ACTION_SELECT_FOLDER)]
      /\ at_run (trace (uiOpenFolder parent) w) = Some (fixed_switches s))
  /\ (choosers (trace (uiSaveFile parent) w)
        = [(fcd, GTK_FILE_CHOOSER_ACTION_SAVE)]
      /\ at_run (trace (uiSaveFile parent) w) = Some (fixed_switches s))
  /\ (choosers (trace (uiSaveFile2 parent filters) w)
        = [(fcd, GTK_FILE_CHOOSER_ACTION_SAVE)]
      /\ at_run (trace (uiSaveFile2 parent filters) w)
         = Some (fixed_switches s)).
Proof.
  cbv zeta. unfold uiOpenFile, uiOpenFolder, uiSaveFile, uiSaveFile2.
  rewrite !windowWindow_trace, !choosers_after_handle,
    !configured_after_handle, !filedialog_choosers, !filedialog_configured.
  repeat split.
Qed.

(** C7. Both save dialogs, with and without filters, are save-mode choosers
    that have overwrite confirmation and folder creation switched on when
    they are run. *)
Theorem save_dialogs_confirm_overwrite_and_create_folders
    (parent : option uiWindow) (filters : list uiFileTypeFilter) (w : world) :
  let fcd := next_object w in
  (choosers (trace (uiSaveFile parent) w) = [(fcd, GTK_FILE_CHOOSER_ACTION_SAVE)]
   /\ configured fcd do_overwrite_confirmation
        (before_run fcd (trace (uiSaveFile parent) w)) = Some true
   /\ configured fcd create_folders
        (before_run fcd (trace (uiSaveFile parent) w)) = Some true)
  /\ (choosers (trace (uiSaveFile2 parent filters) w)
        = [(fcd, GTK_FILE_CHOOSER_ACTION_SAVE)]
      /\ configured fcd do_overwrite_confirmation
           (before_run fcd (trace (uiSaveFile2 parent filters) w)) = Some true
      /\ configured fcd create_folders
           (before_run fcd (trace (uiSaveFile2 parent filters) w))
         = Some true).
Proof.
  cbv zeta. unfold uiSaveFile, uiSaveFile2.
  rewrite !windowWindow_trace, !choosers_after_handle,
    !configured_after_handle, !filedialog_choosers, !filedialog_configured.
  repeat split.
Qed.

(** C3. Saving with an empty list of filters is saving without filters: the
    same calls with the same arguments, the same result for the same user
    response, the same world afterwards; no filter object is created, no
    pattern registered and no filter entry added. *)
Theorem uiSaveFile2_without_filters (parent : option uiWindow) (w : world) :
  uiSaveFile2 parent [] w = uiSaveFile parent w
  /\ filter_objects (trace (uiSaveFile2 parent []) w) = []
  /\ pattern_calls (trace (uiSaveFile2 parent []) w) = []
  /\ entry_calls (trace (uiSaveFile2 parent []) w) = [].
Proof.
  split; [reflexivity|].
  unfold uiSaveFile2. rewrite windowWindow_trace, filedialog_trace.
  rewrite filter_objects_app, pattern_calls_app, entry_calls_app.
  destruct parent; cbn; destruct (response w =? GTK_RESPONSE_ACCEPT);
    repeat split.
Qed.

(** C6. [uiMsgBox] makes exactly these calls: it creates a modal message
    dialog of type "other" with the single OK button and the title as its
    message, sets the description as secondary text, runs the dialog and
    destroys it.  [uiMsgBoxError] does the same with type "error".  Both
    return nothing. *)
Theorem message_boxes
    (parent : option uiWindow) (title description : cstring) (w : world) :
  let md := next_object w in
  let handle_lookup :=
    match parent with Some win => [uiControlHandle win] | None => [] end in
  let calls (type : GtkMessageType) :=
    handle_lookup
    ++ [gtk_message_dialog_new (option_map window_widget parent)
          GTK_DIALOG_MODAL type GTK_BUTTONS_OK (cstr title) md;
        gtk_message_dialog_format_secondary_text md (cstr description);
        gtk_dialog_run md;
        gtk_widget_destroy md] in
  trace (uiMsgBox parent title description) w = calls GTK_MESSAGE_OTHER
  /\ result (uiMsgBox parent title description) w = Some tt
  /\ trace (uiMsgBoxError parent title description) w = calls GTK_MESSAGE_ERROR
  /\ result (uiMsgBoxError parent title description) w = Some tt.
Proof. destruct parent; repeat split. Qed.

(** A chooser is run only once the filter loops have come to their end. *)
Lemma filedialog_shown parent mode confirm filters w :
  shown (next_object w) (trace (filedialog parent mode confirm filters) w)
  <-> result (filedialog parent mode confirm filters) w <> None.
Proof.
  rewrite filedialog_trace, filedialog_result. unfold shown.
  destruct (result _ _) as [buf|].
  - split; [discriminate|]. intros _.
    do 6 (apply in_cons). apply in_or_app. right.
    apply in_or_app. right. now left.
  - split; [|congruence]. intros H. exfalso.
    rewrite app_nil_r in H. repeat (destruct H as [H|H]; [discriminate|]).
    now apply (not_shown_loop _ _ (filedialog_filters_calls _ _ _ _)) in H.
Qed.

Lemma shown_after_handle d (parent : option uiWindow) log :
  shown d
    (match parent with Some win => [uiControlHandle win] | None => [] end
     ++ log)
  <-> shown d log.
Proof.
  unfold shown. destruct parent; cbn; [|tauto].
  split; [intros [H|H]; [discriminate|exact H] | tauto].
Qed.

Lemma filedialog_fitting parent mode confirm filters w :
  all_fit filters ->
  result (filedialog parent mode confirm filters) w
  = Some (if response w =? GTK_RESPONSE_ACCEPT then filename w else None).
Proof.
  intros Hfit. rewrite filedialog_result.
  destruct (filedialog_filters_ok (next_object w) filters
              {| pattern := None; pattern_cap := 0 |}
              {| next_object := S (next_object w); response := response w;
                 filename := filename w; fresh_memory := fresh_memory w |})
    as (buf & -> & _);
    [split; [reflexivity | discriminate] | assumption | reflexivity].
Qed.

(** C2. When the dialog's response is anything but accept, [uiOpenFile],
    [uiOpenFolder] and [uiSaveFile] return NULL, whatever the parent, and so
    does [uiSaveFile2] whenever its dialog was shown (which it is at least
    for filters whose extensions all fit).  NULL is an ordinary return: the
    run has not stopped at a fault. *)
Theorem cancelling_returns_no_selection (parent : option uiWindow) (w : world) :
  response w <> GTK_RESPONSE_ACCEPT ->
  result (uiOpenFile parent) w = Some None
  /\ result (uiOpenFolder parent) w = Some None
  /\ result (uiSaveFile parent) w = Some None
  /\ (forall filters,
        shown (next_object w) (trace (uiSaveFile2 parent filters) w) ->
        result (uiSaveFile2 parent filters) w = Some None)
  /\ (forall filters,
        all_fit filters ->
        shown (next_object w) (trace (uiSaveFile2 parent filters) w)
        /\ result (uiSaveFile2 parent filters) w = Some None).
Proof.
  intros Hr. apply Z.eqb_neq in Hr.
  unfold uiOpenFile, uiOpenFolder, uiSaveFile, uiSaveFile2.
  rewrite !windowWindow_result.
  rewrite !(filedialog_fitting _ _ _ []) by constructor. rewrite Hr.
  split; [reflexivity|]. split; [reflexivity|]. split; [reflexivity|].
  split; intros filters H.
  - rewrite windowWindow_trace, shown_after_handle, filedialog_shown in H.
    rewrite windowWindow_result. rewrite filedialog_result in *.
    destruct (result _ _); [now rewrite Hr | congruence].
  - rewrite windowWindow_trace, shown_after_handle, filedialog_shown.
    rewrite windowWindow_result, (filedialog_fitting _ _ _ _ _ H), Hr.
    split; [discriminate | reflexivity].
Qed.

Lemma cancelling_returns_no_selection_witness :
  response cancelling <> GTK_RESPONSE_ACCEPT
  /\ result (uiOpenFile None) cancelling = Some None
  /\ result (uiOpenFolder None) cancelling = Some None
  /\ result (uiSaveFile None) cancelling = Some None
  /\ result (uiSaveFile2 None [images; all_files]) cancelling = Some None.
Proof.
  assert (H : response cancelling <> GTK_RESPONSE_ACCEPT) by discriminate.
  destruct (cancelling_returns_no_selection None cancelling H)
    as (H1 & H2 & H3 & H4 & _).
  split; [exact H|]. split; [exact H1|]. split; [exact H2|].
  split; [exact H3|].
  apply H4. vm_compute. repeat (first [left; reflexivity | right]).
Defined.

(** ** The parent window *)

Lemma anchors_loop l t :
  Forall (fun c => loop_call c = true) l -> anchors (l ++ t) = anchors t.
Proof.
  induction 1 as [|c l Hc _ IH]; [reflexivity|].
  destruct c; cbn in *; try discriminate; exact IH.
Qed.

Lemma with_anchor_loop p l :
  Forall (fun c => loop_call c = true) l -> map (with_anchor p) l = l.
Proof.
  induction 1 as [|c l Hc _ IH]; [reflexivity|].
  cbn [map]. rewrite IH.
  destruct c; cbn in *; try discriminate; reflexivity.
Qed.

Lemma filedialog_anchor p mode confirm filters w :
  dereferenced (trace (filedialog p mode confirm filters) w) = []
  /\ anchors (trace (filedialog p mode confirm filters) w) = [p]
  /\ trace (filedialog p mode confirm filters) w
     = map (with_anchor p) (trace (filedialog None mode confirm filters) w)
  /\ result (filedialog p mode confirm filters) w
     = result (filedialog None mode confirm filters) w
  /\ after (filedialog p mode confirm filters) w
     = after (filedialog None mode confirm filters) w.
Proof.
  rewrite !filedialog_trace, !filedialog_result.
  pose proof (filedialog_filters_calls (next_object w) filters
                {| pattern := None; pattern_cap := 0 |}
                {| next_object := S (next_object w); response := response w;
                   filename := filename w; fresh_memory := fresh_memory w |})
    as Hloop.
  split; [|split; [|split; [|split]]].
  - cbn [app dereferenced].
    rewrite dereferenced_app, (dereferenced_loop _ Hloop).
    destruct (result _ _) as [buf|]; [|reflexivity].
    destruct (pattern buf), (response w =? GTK_RESPONSE_ACCEPT); reflexivity.
  - cbn [app anchors]. rewrite (anchors_loop _ _ Hloop).
    destruct (result _ _) as [buf|]; [|reflexivity].
    destruct (pattern buf), (response w =? GTK_RESPONSE_ACCEPT); reflexivity.
  - rewrite !map_app, (with_anchor_loop _ _ Hloop). cbn [map with_anchor].
    do 2 f_equal.
    destruct (result _ _) as [buf|]; [|reflexivity].
    destruct (pattern buf), (response w =? GTK_RESPONSE_ACCEPT); reflexivity.
  - reflexivity.
  - unfold filedialog. run. reflexivity.
Qed.

Lemma filedialog_same_but_anchor
    (op : option uiWindow -> M (option cstring)) mode confirm filters :
  (forall parent,
     op parent = bind (windowWindow parent)
                   (fun p => filedialog p mode confirm filters)) ->
  same_but_anchor op.
Proof.
  intros Hop win w. rewrite !Hop.
  rewrite !windowWindow_trace, !windowWindow_result, !windowWindow_after.
  cbn [option_map app].
  destruct (filedialog_anchor (Some (window_widget win)) mode confirm
              filters w) as (_ & _ & Ht & Hr & Ha).
  destruct (filedialog_anchor None mode confirm filters w)
    as (Hd & Hn & _).
  rewrite <- Ht. repeat split; assumption.
Qed.

(** C5. In each of the six operations an absent parent is never asked for
    its handle and the dialog is created with a NULL parent window.  With a
    parent present the operation asks for its handle first and creates the
    dialog with that window as parent; every other call, the result and the
    world left behind are the same. *)
Theorem absent_parent_gives_null_anchor :
  same_but_anchor uiOpenFile
  /\ same_but_anchor uiOpenFolder
  /\ same_but_anchor uiSaveFile
  /\ (forall filters, same_but_anchor (fun p => uiSaveFile2 p filters))
  /\ (forall title description,
        same_but_anchor (fun p => uiMsgBox p title description))
  /\ (forall title description,
        same_but_anchor (fun p => uiMsgBoxError p title description)).
Proof.
  split; [|split; [|split; [|split; [|split]]]].
  - now apply (filedialog_same_but_anchor _ GTK_FILE_CHOOSER_ACTION_OPEN
                 (lit "_Open") []).
  - now apply (filedialog_same_but_anchor _
                 GTK_FILE_CHOOSER_ACTION_SELECT_FOLDER (lit "_Open") []).
  - now apply (filedialog_same_but_anchor _ GTK_FILE_CHOOSER_ACTION_SAVE
                 (lit "_Save") []).
  - intros filters.
    now apply (filedialog_same_but_anchor _ GTK_FILE_CHOOSER_ACTION_SAVE
                 (lit "_Save") filters).
  - intros title description win w. repeat split.
  - intros title description win w. repeat split.
Qed.

(** ** Filters *)

Lemma views_after_handle (parent : option uiWindow) log :
  let log' :=
    match parent with Some win => [uiControlHandle win] | None => [] end
    ++ log in
  filter_objects log' = filter_objects log
  /\ name_calls log' = name_calls log
  /\ pattern_calls log' = pattern_calls log
  /\ entry_calls log' = entry_calls log
  /\ (Forall in_bounds log' <-> Forall in_bounds log).
Proof.
  destruct parent; cbn; repeat split; trivial.
  - intros H. now inversion H.
  - intros H. now constructor.
Qed.

(** What a run of [uiSaveFile2] does with filters whose extensions all
    fit: one object per filter, labelled with the filter's name; on it one
    pattern per extension; one [gtk_file_chooser_add_filter] call per
    extension; every [sprintf] inside its block; the dialog is reached. *)
Lemma uiSaveFile2_filter_calls parent filters w :
  all_fit filters ->
  let log := trace (uiSaveFile2 parent filters) w in
  let g := S (next_object w) in
  result (uiSaveFile2 parent filters) w <> None
  /\ filter_objects log = seq g (length filters)
  /\ name_calls log
     = combine (seq g (length filters)) (map (fun f => cstr (name f)) filters)
  /\ pattern_calls log = expected_patterns g filters
  /\ entry_calls log = entries_made (next_object w) g filters
  /\ Forall in_bounds log.
Proof.
  intros Hfit. cbv zeta. unfold uiSaveFile2.
  rewrite windowWindow_result, windowWindow_trace.
  destruct (views_after_handle parent
              (trace (filedialog (option_map window_widget parent)
                        GTK_FILE_CHOOSER_ACTION_SAVE (lit "_Save") filters) w))
    as (-> & -> & -> & -> & Hb).
  rewrite Hb. clear Hb.
  rewrite (filedialog_fitting _ _ _ _ _ Hfit), filedialog_trace.
  destruct (filedialog_filters_ok (next_object w) filters
              {| pattern := None; pattern_cap := 0 |}
              {| next_object := S (next_object w); response := response w;
                 filename := filename w; fresh_memory := fresh_memory w |})
    as (buf & -> & _ & Hpat & Hent & Hin & Hobj & Hnam);
    [split; [reflexivity | discriminate] | assumption |].
  cbn [next_object] in *.
  rewrite filter_objects_app, name_calls_app, pattern_calls_app,
    entry_calls_app.
  cbn [app filter_objects name_calls pattern_calls entry_calls].
  rewrite filter_objects_app, name_calls_app, pattern_calls_app,
    entry_calls_app, Hpat, Hent, Hobj, Hnam.
  assert (Htail :
    forall tail,
      tail = match pattern buf with Some _ => [uiprivFree] | None => [] end
             ++ gtk_dialog_run (next_object w)
             :: (if response w =? GTK_RESPONSE_ACCEPT
                 then [gtk_file_chooser_get_filename (next_object w)]
                 else [])
             ++ [gtk_widget_destroy (next_object w)] ->
      filter_objects tail = [] /\ name_calls tail = []
      /\ pattern_calls tail = [] /\ entry_calls tail = []
      /\ Forall in_bounds tail).
  { intros tail ->.
    destruct (pattern buf), (response w =? GTK_RESPONSE_ACCEPT); cbn;
      repeat split; repeat constructor. }
  destruct (Htail _ eq_refl) as (-> & -> & -> & -> & Hb).
  rewrite !app_nil_r.
  split; [discriminate|]. repeat split; trivial.
  repeat (constructor; [exact I|]). apply Forall_app. now split.
Qed.

Lemma entries_made_length fc g filters :
  length (entries_made fc g filters)
  = length (concat (map extensions filters)).
Proof.
  revert g. induction filters as [|f rest IH]; intros g; cbn; [reflexivity|].
  now rewrite !length_app, length_map, IH.
Qed.

(** With fitting extensions the chooser is handed a filter once for every
    extension in the list, not once for every filter. *)
Lemma uiSaveFile2_entry_count parent filters w :
  all_fit filters ->
  length (entry_calls (trace (uiSaveFile2 parent filters) w))
  = length (concat (map extensions filters)).
Proof.
  intros Hfit.
  destruct (uiSaveFile2_filter_calls parent filters w Hfit)
    as (_ & _ & _ & _ & -> & _).
  apply entries_made_length.
Qed.

(** An extension of [INT_MAX - 2] bytes.  [3 + ext_len] is not an [int]:
    C leaves the sum undefined, and with it the rest of the run. *)
Lemma filedialog_extensions_oversize fc g ext rest buf w :
  strlen ext = 2147483645 ->
  filedialog_extensions fc g (ext :: rest) buf w = ([], None, w).
Proof.
  intros H. cbn [filedialog_extensions]. rewrite H.
  change (int_add 3 (int_wrap 2147483645)) with (@None Z).
  reflexivity.
Qed.

Lemma uiSaveFile2_oversize parent label ext w :
  strlen ext = 2147483645 ->
  let filters := [{| name := label; extensions := [ext] |}] in
  let fcd := next_object w in
  Z.of_nat (length (formatted ext)) = 2147483648
  /\ result (uiSaveFile2 parent filters) w = None
  /\ trace (uiSaveFile2 parent filters) w
     = match parent with Some win => [uiControlHandle win] | None => [] end
       ++ [gtk_file_chooser_dialog_new None (option_map window_widget parent)
             GTK_FILE_CHOOSER_ACTION_SAVE
             [(lit "_Cancel", GTK_RESPONSE_CANCEL);
              (lit "_Save", GTK_RESPONSE_ACCEPT)] fcd;
           gtk_file_chooser_set_local_only fcd false;
           gtk_file_chooser_set_select_multiple fcd false;
           gtk_file_chooser_set_show_hidden fcd true;
           gtk_file_chooser_set_do_overwrite_confirmation fcd true;
           gtk_file_chooser_set_create_folders fcd true;
           gtk_file_filter_new (S fcd);
           gtk_file_filter_set_name (S fcd) (cstr label)].
Proof.
  intros H. cbv zeta.
  split; [rewrite length_formatted, H; reflexivity|].
  unfold uiSaveFile2.
  rewrite windowWindow_result, windowWindow_trace, filedialog_result,
    filedialog_trace.
  cbn [filedialog_filters extensions name]. run.
  unfold trace, result. rewrite (filedialog_extensions_oversize _ _ _ _ _ _ H).
  split; reflexivity.
Qed.

Lemma strlen_oversize : strlen oversize = 2147483645.
Proof.
  unfold strlen, oversize. rewrite cstr_repeat by reflexivity.
  rewrite repeat_length. apply Z2Nat.id. discriminate.
Qed.

(** An extension of [INT_MAX + 1] bytes meeting the empty buffer.  Its
    length becomes the [int] [INT_MIN], [3 + ext_len] is -2147483645, the
    test fails, no block is asked for, and [sprintf] writes 2147483651
    bytes through the NULL pointer. *)
Lemma filedialog_extensions_beyond fc g ext rest w :
  strlen ext = 2147483648 ->
  filedialog_extensions fc g (ext :: rest)
    {| pattern := None; pattern_cap := 0 |} w
  = ([sprintf 0 (formatted ext)], None, w).
Proof.
  intros H. cbn [filedialog_extensions]. rewrite H.
  change (int_add 3 (int_wrap 2147483648)) with (Some (-2147483645)).
  reflexivity.
Qed.

Lemma uiSaveFile2_beyond parent label ext w :
  strlen ext = 2147483648 ->
  let filters := [{| name := label; extensions := [ext] |}] in
  let fcd := next_object w in
  Z.of_nat (length (formatted ext)) = 2147483651
  /\ result (uiSaveFile2 parent filters) w = None
  /\ trace (uiSaveFile2 parent filters) w
     = match parent with Some win => [uiControlHandle win] | None => [] end
       ++ [gtk_file_chooser_dialog_new None (option_map window_widget parent)
             GTK_FILE_CHOOSER_ACTION_SAVE
             [(lit "_Cancel", GTK_RESPONSE_CANCEL);
              (lit "_Save", GTK_RESPONSE_ACCEPT)] fcd;
           gtk_file_chooser_set_local_only fcd false;
           gtk_file_chooser_set_select_multiple fcd false;
           gtk_file_chooser_set_show_hidden fcd true;
           gtk_file_chooser_set_do_overwrite_confirmation fcd true;
           gtk_file_chooser_set_create_folders fcd true;
           gtk_file_filter_new (S fcd);
           gtk_file_filter_set_name (S fcd) (cstr label);
           sprintf 0 (formatted ext)].
Proof.
  intros H. cbv zeta.
  split; [rewrite length_formatted, H; reflexivity|].
  unfold uiSaveFile2.
  rewrite windowWindow_result, windowWindow_trace, filedialog_result,
    filedialog_trace.
  cbn [filedialog_filters extensions name]. run.
  unfold trace, result. rewrite (filedialog_extensions_beyond _ _ _ _ _ H).
  split; reflexivity.
Qed.

Lemma strlen_beyond : strlen beyond = 2147483648.
Proof.
  unfold strlen, beyond. rewrite cstr_repeat by reflexivity.
  rewrite repeat_length. apply Z2Nat.id. discriminate.
Qed.

Lemma format_into_overrun p ext w :
  (block_size p < length (formatted ext))%nat ->
  format_into p ext w = ([sprintf (block_size p) (formatted ext)], None, w).
Proof.
  intros H. unfold format_into. destruct p as [b|]; [|reflexivity].
  cbn [block_size] in H.
  destruct (Nat.leb_spec (length (formatted ext)) (length b)); [lia|].
  reflexivity.
Qed.

Lemma fits_size_defined ext : fits ext -> size_defined ext.
Proof.
  unfold fits, size_defined. intros H. pose proof (strlen_nonneg ext).
  rewrite int_wrap_small; unfold INT_MIN, INT_MAX in *; lia.
Qed.

(** The bound of [fits] is sharp wherever C defines the run: from any
    well-formed buffer, an extension that does not fit, but for which
    [3 + ext_len] is an [int], stops the run at a [sprintf] that is out of
    bounds. *)
Lemma filedialog_extensions_unfit fc g ext rest buf w :
  buffer_ok buf -> size_defined ext -> ~ fits ext ->
  result (filedialog_extensions fc g (ext :: rest) buf) w = None
  /\ ~ Forall in_bounds (trace (filedialog_extensions fc g (ext :: rest) buf) w).
Proof.
  intros [Hcap Hmax] Hdef Hext. unfold fits in Hext.
  unfold size_defined in Hdef.
  pose proof (length_formatted ext) as Hlen.
  pose proof (int_wrap_range (strlen ext)) as Hw.
  cbn [filedialog_extensions].
  rewrite int_add_defined by (unfold INT_MIN, INT_MAX in *; lia). run.
  set (n := 3 + int_wrap (strlen ext)) in *.
  destruct (Z.gtb_spec n (pattern_cap buf)) as [Hgrow|Hroom]; run.
  - set (b1 := map (fun k => nth k match pattern buf with
                                   | None => []
                                   | Some b => b
                                   end (fresh_memory w k))
                 (seq 0 (Z.to_nat (size_t_of_int n)))).
    assert (Hb1 : Z.of_nat (length b1) = n).
    { subst b1. rewrite length_map, length_seq.
      unfold size_t_of_int, INT_MAX in *. rewrite Z.mod_small by lia. lia. }
    assert (Hover : (block_size (Some b1) < length (formatted ext))%nat)
      by (cbn [block_size]; unfold INT_MAX in *; lia).
    unfold trace, result, after. rewrite (format_into_overrun _ _ _ Hover).
    cbn [fst snd app block_size]. split; [reflexivity|].
    intros HF. inversion HF as [|? ? _ HF']; subst.
    inversion HF' as [|? ? Hb _]; subst. cbn [in_bounds] in Hb. lia.
  - assert (Hover : (block_size (pattern buf) < length (formatted ext))%nat)
      by lia.
    unfold trace, result, after. rewrite (format_into_overrun _ _ _ Hover).
    cbn [fst snd app]. split; [reflexivity|].
    intros HF. inversion HF as [|? ? Hb _]; subst. cbn [in_bounds] in Hb. lia.
Qed.

(** ** The claims about filters *)

(** C1. The code does not register each filter as one entry.  A filter
    without extensions ([all_files]) gets its object and its name but is
    never added to the chooser: no entry for one filter supplied.  A filter
    with two extensions ([images]) is added twice, once after each
    pattern. *)
Theorem filter_entries_follow_extensions
    (parent : option uiWindow) (w : world) :
  let fcd := next_object w in
  let g := S fcd in
  (filter_objects (trace (uiSaveFile2 parent [all_files]) w) = [g]
   /\ name_calls (trace (uiSaveFile2 parent [all_files]) w)
      = [(g, lit "All files")]
   /\ entry_calls (trace (uiSaveFile2 parent [all_files]) w) = []
   /\ filter_entries (trace (uiSaveFile2 parent [all_files]) w) = [])
  /\ (filter_objects (trace (uiSaveFile2 parent [images]) w) = [g]
      /\ entry_calls (trace (uiSaveFile2 parent [images]) w)
         = [(fcd, g); (fcd, g)]
      /\ filter_entries (trace (uiSaveFile2 parent [images]) w) = [g]).
Proof.
  cbv zeta.
  assert (Ha : all_fit [all_files]) by (repeat constructor).
  assert (Hi : all_fit [images])
    by (repeat constructor; unfold fits; vm_compute; discriminate).
  destruct (uiSaveFile2_filter_calls parent _ w Ha)
    as (_ & Ha1 & Ha2 & _ & Ha3 & _).
  destruct (uiSaveFile2_filter_calls parent _ w Hi)
    as (_ & Hi1 & _ & _ & Hi3 & _).
  unfold filter_entries. rewrite Ha1, Ha2, Ha3, Hi1, Hi3.
  cbn. rewrite Nat.eqb_refl. repeat split.
Qed.

(** C4, as the code has it.  For filters whose extensions all fit (at most
    [INT_MAX - 3] bytes each) the run reaches the dialog and the patterns
    registered are, filter by filter and extension by extension, the two
    characters [*.] followed by the extension: two characters longer than
    the extension.  The buffer is shared, and what an earlier, longer
    pattern left behind the terminator is never read back. *)
Theorem patterns_are_star_dot_extension
    (parent : option uiWindow) (filters : list uiFileTypeFilter) (w : world) :
  all_fit filters ->
  result (uiSaveFile2 parent filters) w <> None
  /\ filter_objects (trace (uiSaveFile2 parent filters) w)
     = seq (S (next_object w)) (length filters)
  /\ pattern_calls (trace (uiSaveFile2 parent filters) w)
     = expected_patterns (S (next_object w)) filters
  /\ (forall ext,
        glob ext = ["*"; "."]%byte ++ cstr ext
        /\ Z.of_nat (length (glob ext)) = 2 + strlen ext)
  /\ (forall ext stale, cstr (formatted ext ++ stale) = glob ext).
Proof.
  intros Hfit.
  destruct (uiSaveFile2_filter_calls parent filters w Hfit)
    as (Hr & Hobj & _ & Hpat & _).
  repeat split; try assumption.
  - apply length_glob.
  - apply cstr_formatted.
Qed.

Lemma patterns_are_star_dot_extension_witness :
  all_fit [images; all_files]
  /\ pattern_calls (trace (uiSaveFile2 None [images; all_files]) cancelling)
     = [(2%nat, lit "*.jpeg"); (2%nat, lit "*.png")].
Proof.
  assert (H : all_fit [images; all_files])
    by (repeat constructor; unfold fits; vm_compute; discriminate).
  split; [exact H|].
  destruct (patterns_are_star_dot_extension None [images; all_files]
              cancelling H) as (_ & _ & Hpat & _).
  exact Hpat.
Defined.

(** The shared block at work: after [jpeg2000] it has 11 bytes; the pattern
    for [png] is written over its start, the bytes [2000] stay behind the
    new terminator, and neither pattern registered shows them. *)
Example stale_bytes_stay_behind_the_terminator :
  result
    (filedialog_extensions 1%nat 2%nat [lit "jpeg2000"; lit "png"]
       {| pattern := None; pattern_cap := 0 |}) cancelling
  = Some {| pattern := Some (lit "*.png" ++ [x00] ++ lit "2000" ++ [x00]);
            pattern_cap := 11 |}
  /\ pattern_calls
       (trace
          (filedialog_extensions 1%nat 2%nat [lit "jpeg2000"; lit "png"]
             {| pattern := None; pattern_cap := 0 |}) cancelling)
     = [(2%nat, lit "*.jpeg2000"); (2%nat, lit "*.png")].
Proof. split; reflexivity. Qed.

(** C4 as stated fails twice.  The prefix has two characters, not three:
    the pattern registered for [png] is [*.png], and no three characters
    followed by [png] make it.  And not every extension gets a pattern: for
    the oversize one the run stops before any is registered. *)
Lemma pattern_prefix_is_two_characters :
  pattern_calls
    (trace (uiSaveFile2 None [{| name := lit "PNG"; extensions := [lit "png"] |}])
       cancelling)
  = [(2%nat, lit "*.png")]
  /\ (forall prefix : list byte,
        length prefix = 3%nat -> lit "*.png" <> prefix ++ lit "png")
  /\ result (uiSaveFile2 None [huge]) cancelling = None
  /\ pattern_calls (trace (uiSaveFile2 None [huge]) cancelling) = [].
Proof.
  split; [reflexivity|]. split.
  - intros prefix H E. apply (f_equal (@length byte)) in E.
    rewrite length_app, H in E. discriminate E.
  - destruct (uiSaveFile2_oversize None (lit "Huge") oversize cancelling
                strlen_oversize) as (_ & Hr & Ht).
    unfold huge. rewrite Hr, Ht. split; reflexivity.
Qed.

(** C10. The buffer does not hold every pattern.  For the extension of
    [INT_MAX + 1] bytes the length does not fit [ext_len]: it becomes
    [INT_MIN], [3 + ext_len] is -2147483645 and not above the capacity 0,
    no block is allocated, [sprintf] is handed the NULL buffer and
    2147483651 bytes to write, and the run ends there. *)
Theorem oversize_extension_overruns_pattern_buffer
    (parent : option uiWindow) (w : world) :
  strlen beyond = INT_MAX + 1
  /\ int_add 3 (int_wrap (strlen beyond)) = Some (-2147483645)
  /\ Z.of_nat (length (formatted beyond)) = 2147483651
  /\ result (uiSaveFile2 parent [vast]) w = None
  /\ last (trace (uiSaveFile2 parent [vast]) w) uiprivFree
     = sprintf 0 (formatted beyond)
  /\ ~ Forall in_bounds (trace (uiSaveFile2 parent [vast]) w).
Proof.
  destruct (uiSaveFile2_beyond parent (lit "Vast") beyond w strlen_beyond)
    as (Hlen & Hr & Ht).
  fold vast in Hr, Ht.
  split; [exact strlen_beyond|].
  split; [rewrite strlen_beyond; reflexivity|].
  split; [exact Hlen|]. split; [exact Hr|]. split.
  - rewrite Ht. destruct parent; reflexivity.
  - rewrite Ht. intros HF. apply Forall_app in HF. destruct HF as [_ HF].
    do 8 (inversion HF as [|? ? _ HF']; subst; clear HF; rename HF' into HF).
    inversion HF as [|? ? Hb _]; subst. cbn [in_bounds] in Hb. lia.
Qed.

(** ** Saving twice *)

(** [uiSaveFile] takes the parent window and nothing else, and no call of
    the file hands a path to the chooser: what a save dialog starts out
    with, and what the toolkit reports once it is accepted, is the
    toolkit's and the user's doing.  The part of the code is this.  An
    accepted save dialog returns the path the toolkit reports for it,
    unchanged (NULL if it reports none).  The calls made are the fixed
    sequence below, in which no path occurs.  So a later accepted call
    gives the result of an earlier one exactly when the toolkit reports
    the same path again. *)
Theorem uiSaveFile_returns_reported_path (parent : option uiWindow) (w : world) :
  response w = GTK_RESPONSE_ACCEPT ->
  let fcd := next_object w in
  result (uiSaveFile parent) w = Some (filename w)
  /\ trace (uiSaveFile parent) w
     = match parent with Some win => [uiControlHandle win] | None => [] end
       ++ [gtk_file_chooser_dialog_new None (option_map window_widget parent)
             GTK_FILE_CHOOSER_ACTION_SAVE
             [(lit "_Cancel", GTK_RESPONSE_CANCEL);
              (lit "_Save", GTK_RESPONSE_ACCEPT)] fcd;
           gtk_file_chooser_set_local_only fcd false;
           gtk_file_chooser_set_select_multiple fcd false;
           gtk_file_chooser_set_show_hidden fcd true;
           gtk_file_chooser_set_do_overwrite_confirmation fcd true;
           gtk_file_chooser_set_create_folders fcd true;
           gtk_dialog_run fcd;
           gtk_file_chooser_get_filename fcd;
           gtk_widget_destroy fcd]
  /\ (forall w',
        response w' = GTK_RESPONSE_ACCEPT ->
        (result (uiSaveFile parent) w' = result (uiSaveFile parent) w
         <-> filename w' = filename w)).
Proof.
  intros Hr fcd.
  assert (R : forall v, response v = GTK_RESPONSE_ACCEPT ->
                        result (uiSaveFile parent) v = Some (filename v)).
  { intros v Hv. unfold uiSaveFile.
    rewrite windowWindow_result, (filedialog_fitting _ _ _ []) by constructor.
    now rewrite Hv. }
  split; [now apply R|]. split.
  - unfold uiSaveFile. rewrite windowWindow_trace, filedialog_trace.
    cbn. now rewrite Hr.
  - intros w' Hr'. rewrite (R w Hr), (R w' Hr').
    split; [intros E; now inversion E | now intros ->].
Qed.

Lemma uiSaveFile_returns_reported_path_witness :
  response (accepting (lit "/home/u/a.txt")) = GTK_RESPONSE_ACCEPT
  /\ result (uiSaveFile (Some main_window)) (accepting (lit "/home/u/a.txt"))
     = Some (Some (lit "/home/u/a.txt")).
Proof.
  assert (H : response (accepting (lit "/home/u/a.txt")) = GTK_RESPONSE_ACCEPT)
    by reflexivity.
  split; [exact H|].
  exact (proj1 (uiSaveFile_returns_reported_path (Some main_window)
                  (accepting (lit "/home/u/a.txt")) H)).
Defined.

(** ** One round of the inner loop *)

(** What formatting one fitting extension does to a well-formed buffer: the
    block is grown only if it is too small, the pattern is written inside
    it and registered, the filter is handed to the chooser, and the loop
    goes on with a block of the larger of the two sizes. *)
Lemma filedialog_extensions_step fc g ext buf w :
  buffer_ok buf -> fits ext ->
  exists buf2,
    buffer_ok buf2
    /\ pattern buf2 <> None
    /\ block_size (pattern buf2)
       = Nat.max (block_size (pattern buf)) (length (formatted ext))
    /\ forall rest,
         trace (filedialog_extensions fc g (ext :: rest) buf) w
         = (if (block_size (pattern buf) <? length (formatted ext))%nat
            then [uiprivRealloc (block_size (pattern buf))
                    (length (formatted ext))]
            else [])
           ++ sprintf (Nat.max (block_size (pattern buf))
                         (length (formatted ext)))
                (formatted ext)
           :: gtk_file_filter_add_pattern g (glob ext)
           :: gtk_file_chooser_add_filter fc g
           :: trace (filedialog_extensions fc g rest buf2) w
         /\ result (filedialog_extensions fc g (ext :: rest) buf) w
            = result (filedialog_extensions fc g rest buf2) w.
Proof.
  intros [Hcap Hmax] Hext.
  pose proof (length_formatted ext) as Hlen.
  pose proof (strlen_nonneg ext) as Hpos.
  cbn [filedialog_extensions]. rewrite (size_of_fitting _ Hext).
  unfold fits in Hext.
  destruct (3 + strlen ext >? pattern_cap buf) eqn:E.
  - assert (Hgrow : pattern_cap buf < 3 + strlen ext)
      by (apply Z.gtb_lt; exact E).
    set (b1 := map (fun k => nth k match pattern buf with
                                   | None => []
                                   | Some b => b
                                   end (fresh_memory w k))
                 (seq 0 (Z.to_nat (size_t_of_int (3 + strlen ext))))).
    assert (Hn : Z.to_nat (size_t_of_int (3 + strlen ext))
                 = length (formatted ext)).
    { unfold size_t_of_int, INT_MAX in *. rewrite Z.mod_small by lia. lia. }
    assert (Hb1 : length b1 = length (formatted ext))
      by (subst b1; now rewrite length_map, length_seq).
    assert (Hfit : (length (formatted ext) <= length b1)%nat) by lia.
    destruct (Nat.ltb_spec (block_size (pattern buf))
                (length (formatted ext))) as [_|?]; [|lia].
    rewrite Nat.max_r by lia.
    exists {| pattern := Some (formatted ext
                               ++ skipn (length (formatted ext)) b1);
              pattern_cap := 3 + strlen ext |}.
    split; [|split; [|split]].
    + split; cbn [pattern pattern_cap block_size];
        [rewrite length_overwritten by assumption; lia | assumption].
    + discriminate.
    + cbn [pattern block_size]. rewrite length_overwritten by assumption.
      exact Hb1.
    + intros rest. run. rewrite E. run. fold b1.
      destruct (format_into_ok _ _ w Hfit) as [-> ->].
      rewrite format_into_after. run. rewrite cstr_formatted, Hn, Hb1.
      split; reflexivity.
  - assert (Hroom : 3 + strlen ext <= pattern_cap buf)
      by (rewrite Z.gtb_ltb in E; apply Z.ltb_ge; exact E).
    destruct (pattern buf) as [b|] eqn:Hp; cbn [block_size] in *; [|lia].
    assert (Hfit : (length (formatted ext) <= length b)%nat) by lia.
    destruct (Nat.ltb_spec (length b) (length (formatted ext))) as [?|_];
      [lia|].
    rewrite Nat.max_l by lia.
    exists {| pattern := Some (formatted ext
                               ++ skipn (length (formatted ext)) b);
              pattern_cap := pattern_cap buf |}.
    split; [|split; [|split]].
    + split; cbn [pattern pattern_cap block_size];
        [rewrite length_overwritten by assumption; lia | assumption].
    + discriminate.
    + cbn [pattern block_size]. now rewrite length_overwritten.
    + intros rest. run. rewrite E. run. rewrite ?Hp.
      destruct (format_into_ok _ _ w Hfit) as [-> ->].
      rewrite format_into_after. run. rewrite cstr_formatted.
      split; reflexivity.
Qed.

(** ** How the pattern buffer grows *)

Lemma last_cons_default {A} (a : A) l d : last (a :: l) d = last l a.
Proof.
  revert a d. induction l as [|b l IH]; intros a d; [reflexivity|].
  change (last (a :: b :: l) d) with (last (b :: l) d).
  rewrite IH. symmetry. apply IH.
Qed.

Lemma last_app_default {A} (l1 l2 : list A) d :
  last (l1 ++ l2) d = last l2 (last l1 d).
Proof.
  revert d. induction l1 as [|a l1 IH]; intros d; [reflexivity|].
  rewrite <- app_comm_cons, !last_cons_default. apply IH.
Qed.

Lemma grows_from_app size l1 l2 :
  grows_from size l1 ->
  grows_from (last (map snd l1) size) l2 ->
  grows_from size (l1 ++ l2).
Proof.
  revert size. induction l1 as [|[old new] l1 IH]; intros size H1 H2;
    [exact H2|].
  destruct H1 as (-> & Hlt & H1). cbn [map snd] in H2.
  rewrite last_cons_default in H2.
  cbn [app grows_from]. repeat split; auto.
Qed.

Lemma realloc_calls_app l1 l2 :
  realloc_calls (l1 ++ l2) = realloc_calls l1 ++ realloc_calls l2.
Proof.
  induction l1 as [|c l1 IH]; simpl; [reflexivity|].
  destruct c; simpl; now rewrite ?IH.
Qed.

Lemma free_calls_app l1 l2 :
  free_calls (l1 ++ l2) = (free_calls l1 + free_calls l2)%nat.
Proof.
  induction l1 as [|c l1 IH]; simpl; [reflexivity|].
  destruct c; simpl; now rewrite ?IH.
Qed.

Lemma free_calls_loop l :
  Forall (fun c => loop_call c = true) l -> free_calls l = 0%nat.
Proof.
  induction 1 as [|c l Hc _ IH]; [reflexivity|].
  destruct c; cbn in *; try discriminate; exact IH.
Qed.

Lemma after_free_loop l t :
  Forall (fun c => loop_call c = true) l ->
  after_free (l ++ t) = after_free t.
Proof.
  induction 1 as [|c l Hc _ IH]; [reflexivity|].
  destruct c; cbn in *; try discriminate; exact IH.
Qed.

Lemma length_formatted_pos ext : (3 <= length (formatted ext))%nat.
Proof. pose proof (length_formatted ext). pose proof (strlen_nonneg ext). lia. Qed.

Lemma filedialog_extensions_buffer fc g exts : forall buf w,
  buffer_ok buf -> Forall fits exts ->
  let log := trace (filedialog_extensions fc g exts buf) w in
  let size := block_size (pattern buf) in
  exists buf',
    result (filedialog_extensions fc g exts buf) w = Some buf'
    /\ buffer_ok buf'
    /\ block_size (pattern buf') = grown size exts
    /\ (pattern buf' = None <-> pattern buf = None /\ exts = [])
    /\ grows_from size (realloc_calls log)
    /\ last (map snd (realloc_calls log)) size = grown size exts
    /\ (length (realloc_calls log) <= length exts)%nat.
Proof.
  induction exts as [|ext rest IH]; intros buf w Hbuf Hfit; cbv zeta.
  - exists buf. cbn.
    split; [reflexivity|]. split; [exact Hbuf|]. split; [reflexivity|].
    split; [tauto|]. split; [exact I|]. split; [reflexivity | lia].
  - inversion Hfit as [|? ? Hext Hrest]; subst.
    destruct (filedialog_extensions_step fc g ext buf w Hbuf Hext)
      as (buf2 & Hok2 & Hsome & Hsize & Hstep).
    destruct (Hstep rest) as [-> ->].
    destruct (IH buf2 w Hok2 Hrest)
      as (buf' & Hres & Hok & Hsz & Hnone & Hgrow & Hlast & Hcount).
    cbv zeta in *. rewrite Hsize in *.
    exists buf'. split; [exact Hres|]. split; [exact Hok|].
    split; [exact Hsz|]. split; [|].
    { split; [intros H; apply Hnone in H; tauto | intros [_ H]; discriminate]. }
    pose proof (length_formatted_pos ext) as Hpos.
    change (grown (block_size (pattern buf)) (ext :: rest))
      with (grown (Nat.max (block_size (pattern buf))
                     (length (formatted ext))) rest).
    destruct (Nat.ltb_spec (block_size (pattern buf))
                (length (formatted ext))) as [Hlt|Hge];
      cbn [app realloc_calls map snd grows_from length].
    + rewrite Nat.max_r in * by lia. rewrite last_cons_default.
      split; [|split; [exact Hlast | lia]].
      split; [reflexivity|]. split; [exact Hlt | exact Hgrow].
    + rewrite Nat.max_l in * by lia.
      split; [exact Hgrow|]. split; [exact Hlast | lia].
Qed.

Lemma grown_app size l1 l2 : grown size (l1 ++ l2) = grown (grown size l1) l2.
Proof. unfold grown. apply fold_left_app. Qed.

Lemma filedialog_filters_buffer fc filters : forall buf w,
  buffer_ok buf -> all_fit filters ->
  let log := trace (filedialog_filters fc filters buf) w in
  let size := block_size (pattern buf) in
  exists buf',
    result (filedialog_filters fc filters buf) w = Some buf'
    /\ buffer_ok buf'
    /\ block_size (pattern buf') = grown size (all_extensions filters)
    /\ (pattern buf' = None <-> pattern buf = None /\ all_extensions filters = [])
    /\ grows_from size (realloc_calls log)
    /\ last (map snd (realloc_calls log)) size
       = grown size (all_extensions filters)
    /\ (length (realloc_calls log) <= length (all_extensions filters))%nat.
Proof.
  induction filters as [|f rest IH]; intros buf w Hbuf Hfit; cbv zeta.
  - exists buf. cbn.
    split; [reflexivity|]. split; [exact Hbuf|]. split; [reflexivity|].
    split; [tauto|]. split; [exact I|]. split; [reflexivity | lia].
  - inversion Hfit as [|? ? Hf Hrest]; subst.
    cbn [filedialog_filters]. run.
    set (w1 := {| next_object := S (next_object w); response := response w;
                  filename := filename w; fresh_memory := fresh_memory w |}).
    destruct (filedialog_extensions_buffer fc (next_object w) (extensions f)
                buf w1 Hbuf Hf)
      as (buf1 & Hres1 & Hok1 & Hsz1 & Hnone1 & Hgrow1 & Hlast1 & Hcount1).
    cbv zeta in *. rewrite Hres1, filedialog_extensions_after.
    destruct (IH buf1 w1 Hok1 Hrest)
      as (buf' & Hres & Hok & Hsz & Hnone & Hgrow & Hlast & Hcount).
    cbv zeta in *. rewrite Hsz1 in *.
    unfold all_extensions in *. cbn [map concat].
    rewrite grown_app, length_app.
    exists buf'. split; [exact Hres|]. split; [exact Hok|].
    split; [exact Hsz|]. split.
    { rewrite Hnone, Hnone1. split.
      - intros [[H1 H2] H3]. now rewrite H2, H3.
      - intros [H1 H2]. apply app_eq_nil in H2. tauto. }
    cbn [realloc_calls]. rewrite realloc_calls_app, map_app, last_app_default,
      length_app, Hlast1.
    split; [|split; [exact Hlast | lia]].
    apply grows_from_app; [exact Hgrow1 | now rewrite Hlast1].
Qed.

Lemma grown_ge size exts : (size <= grown size exts)%nat.
Proof.
  revert size. induction exts as [|e exts IH]; intros size; [apply le_n|].
  change (grown size (e :: exts))
    with (grown (Nat.max size (length (formatted e))) exts).
  etransitivity; [|apply IH]. apply Nat.le_max_l.
Qed.

Lemma grown_holds size exts e :
  In e exts -> (length (formatted e) <= grown size exts)%nat.
Proof.
  revert size. induction exts as [|e' exts IH]; intros size; [intros []|].
  change (grown size (e' :: exts))
    with (grown (Nat.max size (length (formatted e'))) exts).
  intros [->|Hin]; [|now apply IH].
  etransitivity; [|apply grown_ge]. apply Nat.le_max_r.
Qed.

(** The trace of [uiSaveFile2] around its filter loops, for filters that
    fit. *)
Lemma uiSaveFile2_fitting_trace parent filters w :
  all_fit filters ->
  let fcd := next_object w in
  exists loop,
    trace (uiSaveFile2 parent filters) w
    = match parent with Some win => [uiControlHandle win] | None => [] end
      ++ [gtk_file_chooser_dialog_new None (option_map window_widget parent)
            GTK_FILE_CHOOSER_ACTION_SAVE
            [(lit "_Cancel", GTK_RESPONSE_CANCEL);
             (lit "_Save", GTK_RESPONSE_ACCEPT)] fcd;
          gtk_file_chooser_set_local_only fcd false;
          gtk_file_chooser_set_select_multiple fcd false;
          gtk_file_chooser_set_show_hidden fcd true;
          gtk_file_chooser_set_do_overwrite_confirmation fcd true;
          gtk_file_chooser_set_create_folders fcd true]
      ++ loop
      ++ match all_extensions filters with [] => [] | _ => [uiprivFree] end
      ++ gtk_dialog_run fcd
      :: (if response w =? GTK_RESPONSE_ACCEPT
          then [gtk_file_chooser_get_filename fcd] else [])
      ++ [gtk_widget_destroy fcd]
    /\ Forall (fun c => loop_call c = true) loop
    /\ grows_from 0 (realloc_calls loop)
    /\ last (map snd (realloc_calls loop)) 0%nat
       = grown 0 (all_extensions filters)
    /\ (length (realloc_calls loop) <= length (all_extensions filters))%nat.
Proof.
  intros Hfit fcd. unfold uiSaveFile2.
  rewrite windowWindow_trace, filedialog_trace. fold fcd.
  set (w1 := {| next_object := S fcd; response := response w;
                filename := filename w; fresh_memory := fresh_memory w |}).
  destruct (filedialog_filters_buffer fcd filters
              {| pattern := None; pattern_cap := 0 |} w1)
    as (buf & Hres & _ & _ & Hnone & Hgrow & Hlast & Hcount);
    [split; [reflexivity | discriminate] | assumption |].
  cbv zeta in *. cbn [pattern block_size] in *.
  exists (trace (filedialog_filters fcd filters
                   {| pattern := None; pattern_cap := 0 |}) w1).
  rewrite Hres.
  split; [|split; [apply filedialog_filters_calls | auto]].
  do 3 f_equal.
  destruct (pattern buf) as [b|], (all_extensions filters) as [|e l];
    try reflexivity.
  - exfalso. assert (H : Some b = None) by (apply Hnone; auto). discriminate.
  - exfalso. assert (H : e :: l = []) by (apply Hnone; auto). discriminate.
Qed.

(** X3. The pattern buffer only ever grows.  For filters that fit, the
    reallocations of [uiSaveFile2] form one chain that starts from the NULL
    buffer, each asking for strictly more than the block has; there are at
    most as many as there are extensions, and the last one asks for the size
    of the largest pattern, which holds every pattern of the list. *)
Theorem pattern_buffer_only_grows
    (parent : option uiWindow) (filters : list uiFileTypeFilter) (w : world) :
  all_fit filters ->
  let log := trace (uiSaveFile2 parent filters) w in
  grows_from 0 (realloc_calls log)
  /\ last (map snd (realloc_calls log)) 0%nat
     = grown 0 (all_extensions filters)
  /\ (length (realloc_calls log) <= length (all_extensions filters))%nat
  /\ (forall e, In e (all_extensions filters) ->
        (length (formatted e) <= grown 0 (all_extensions filters))%nat).
Proof.
  intros Hfit log. subst log.
  destruct (uiSaveFile2_fitting_trace parent filters w Hfit)
    as (loop & -> & _ & Hgrow & Hlast & Hcount).
  assert (E : forall pre tail1,
             realloc_calls
               (match parent with
                | Some win => [uiControlHandle win] | None => []
                end
                ++ pre ++ loop
                ++ match all_extensions filters with
                   | [] => [] | _ => [uiprivFree]
                   end
                ++ gtk_dialog_run (next_object w) :: tail1
                ++ [gtk_widget_destroy (next_object w)])
             = realloc_calls pre ++ realloc_calls loop ++ realloc_calls tail1).
  { intros pre tail1. rewrite !realloc_calls_app. cbn [realloc_calls].
    rewrite realloc_calls_app.
    destruct parent, (all_extensions filters); cbn;
      now rewrite ?app_nil_r. }
  rewrite E. cbn [realloc_calls app].
  assert (T : realloc_calls
                (if response w =? GTK_RESPONSE_ACCEPT
                 then [gtk_file_chooser_get_filename (next_object w)]
                 else []) = [])
    by (destruct (response w =? GTK_RESPONSE_ACCEPT); reflexivity).
  rewrite T, app_nil_r.
  repeat split; auto. intros e. apply grown_holds.
Qed.

Lemma pattern_buffer_only_grows_witness :
  all_fit [images; all_files]
  /\ realloc_calls (trace (uiSaveFile2 None [images; all_files]) cancelling)
     = [(0%nat, 7%nat)]
  /\ grows_from 0
       (realloc_calls (trace (uiSaveFile2 None [images; all_files]) cancelling)).
Proof.
  assert (H : all_fit [images; all_files])
    by (repeat constructor; unfold fits; vm_compute; discriminate).
  split; [exact H|]. split; [reflexivity|].
  exact (proj1 (pattern_buffer_only_grows None [images; all_files]
                  cancelling H)).
Defined.

(** X4. The pattern buffer is released exactly when it was allocated.  For
    filters that fit, [uiSaveFile2] calls [uiprivFree] once if the filters
    have any extension and not at all if they have none (NULL is never
    freed); the call comes before the dialog is run, and no allocation or
    [sprintf] follows it. *)
Theorem pattern_buffer_freed_once_before_run
    (parent : option uiWindow) (filters : list uiFileTypeFilter) (w : world) :
  all_fit filters ->
  let log := trace (uiSaveFile2 parent filters) w in
  free_calls log
  = match all_extensions filters with [] => 0%nat | _ => 1%nat end
  /\ free_calls (before_run (next_object w) log) = free_calls log
  /\ Forall (fun c => buffer_call c = false) (after_free log).
Proof.
  intros Hfit log. subst log.
  destruct (uiSaveFile2_fitting_trace parent filters w Hfit)
    as (loop & -> & Hloop & _).
  split; [|split].
  - rewrite !free_calls_app, (free_calls_loop _ Hloop).
    destruct parent, (all_extensions filters),
      (response w =? GTK_RESPONSE_ACCEPT); reflexivity.
  - destruct parent; cbn [app before_run free_calls];
      rewrite before_run_loop by assumption;
      rewrite !free_calls_app, (free_calls_loop _ Hloop);
      destruct (all_extensions filters),
        (response w =? GTK_RESPONSE_ACCEPT);
      cbn [app before_run free_calls]; rewrite Nat.eqb_refl; reflexivity.
  - destruct parent; cbn [app after_free];
      rewrite after_free_loop by assumption;
      destruct (all_extensions filters),
        (response w =? GTK_RESPONSE_ACCEPT);
      cbn [app after_free]; repeat constructor.
Qed.

Lemma pattern_buffer_freed_once_before_run_witness :
  all_fit [images; all_files]
  /\ free_calls (trace (uiSaveFile2 None [images; all_files]) cancelling)
     = 1%nat
  /\ free_calls (trace (uiSaveFile2 None [all_files]) cancelling) = 0%nat.
Proof.
  assert (H : all_fit [images; all_files])
    by (repeat constructor; unfold fits; vm_compute; discriminate).
  assert (H' : all_fit [all_files]) by (repeat constructor).
  split; [exact H|]. split.
  - exact (proj1 (pattern_buffer_freed_once_before_run None
                    [images; all_files] cancelling H)).
  - exact (proj1 (pattern_buffer_freed_once_before_run None [all_files]
                    cancelling H')).
Defined.

(** ** When the dialog is reached *)

Lemma fits_dec ext : {fits ext} + {~ fits ext}.
Proof. unfold fits. apply Z_le_dec. Qed.

Lemma filedialog_extensions_stops fc g exts : forall buf w,
  buffer_ok buf -> Forall size_defined exts -> ~ Forall fits exts ->
  result (filedialog_extensions fc g exts buf) w = None
  /\ ~ Forall in_bounds (trace (filedialog_extensions fc g exts buf) w).
Proof.
  induction exts as [|ext rest IH]; intros buf w Hbuf Hdef Hnot.
  - exfalso. apply Hnot. constructor.
  - inversion Hdef as [|? ? Hd Hdrest]; subst.
    destruct (fits_dec ext) as [Hext|Hext].
    + destruct (filedialog_extensions_step fc g ext buf w Hbuf Hext)
        as (buf2 & Hok2 & _ & _ & Hstep).
      destruct (Hstep rest) as [-> ->].
      destruct (IH buf2 w Hok2 Hdrest) as [Hr Hb].
      { intros H. apply Hnot. now constructor. }
      split; [exact Hr|]. intros H. apply Hb.
      apply Forall_app in H. destruct H as [_ H].
      inversion H as [|? ? _ H1]; subst.
      inversion H1 as [|? ? _ H2]; subst.
      now inversion H2.
    + now apply filedialog_extensions_unfit.
Qed.

Lemma filedialog_filters_stops fc filters : forall buf w,
  buffer_ok buf -> all_defined filters -> ~ all_fit filters ->
  result (filedialog_filters fc filters buf) w = None
  /\ ~ Forall in_bounds (trace (filedialog_filters fc filters buf) w).
Proof.
  induction filters as [|f rest IH]; intros buf w Hbuf Hdef Hnot.
  - exfalso. apply Hnot. constructor.
  - inversion Hdef as [|? ? Hd Hdrest]; subst.
    cbn [filedialog_filters]. run.
    set (w1 := {| next_object := S (next_object w); response := response w;
                  filename := filename w; fresh_memory := fresh_memory w |}).
    destruct (Forall_dec fits fits_dec (extensions f)) as [Hf|Hf].
    + destruct (filedialog_extensions_ok fc (next_object w) (extensions f)
                  buf w1 Hbuf Hf) as (buf1 & Hres1 & Hok1 & _).
      rewrite Hres1, filedialog_extensions_after.
      destruct (IH buf1 w1 Hok1 Hdrest) as [Hr Hb].
      { intros H. apply Hnot. now constructor. }
      split; [exact Hr|]. intros H. apply Hb.
      inversion H as [|? ? _ H1]; subst.
      inversion H1 as [|? ? _ H2]; subst.
      apply Forall_app in H2. tauto.
    + destruct (filedialog_extensions_stops fc (next_object w) (extensions f)
                  buf w1 Hbuf Hd Hf) as [Hr Hb].
      rewrite Hr, app_nil_r. split; [reflexivity|].
      intros H. apply Hb.
      inversion H as [|? ? _ H1]; subst. now inversion H1.
Qed.

(** X2. Wherever C defines the run, which is whenever [3 + ext_len] is an
    [int] for every extension (for lengths up to [INT_MAX - 3] and again
    from [INT_MAX + 1] on), [uiSaveFile2] gets as far as showing its dialog
    exactly when every extension has at most [INT_MAX - 3] bytes.  Those
    are also exactly the runs in which every [sprintf] stays inside its
    block; in the others the run ends at a [sprintf] that does not. *)
Theorem dialog_reached_iff_all_fit
    (parent : option uiWindow) (filters : list uiFileTypeFilter) (w : world) :
  all_defined filters ->
  (all_fit filters <-> result (uiSaveFile2 parent filters) w <> None)
  /\ (all_fit filters
      <-> shown (next_object w) (trace (uiSaveFile2 parent filters) w))
  /\ (all_fit filters
      <-> Forall in_bounds (trace (uiSaveFile2 parent filters) w)).
Proof.
  intros Hdef.
  assert (Hdec : all_fit filters \/ ~ all_fit filters).
  { destruct (Forall_dec (fun f => Forall fits (extensions f))
                (fun f => Forall_dec fits fits_dec (extensions f)) filters);
      [now left | now right]. }
  assert (Hbad : ~ all_fit filters ->
                 result (uiSaveFile2 parent filters) w = None
                 /\ ~ Forall in_bounds (trace (uiSaveFile2 parent filters) w)).
  { intros Hnot. unfold uiSaveFile2.
    rewrite windowWindow_result, windowWindow_trace, filedialog_result,
      filedialog_trace.
    destruct (filedialog_filters_stops (next_object w) filters
                {| pattern := None; pattern_cap := 0 |}
                {| next_object := S (next_object w); response := response w;
                   filename := filename w; fresh_memory := fresh_memory w |})
      as [Hr Hb];
      [split; [reflexivity | discriminate] | assumption | assumption |].
    rewrite Hr. split; [reflexivity|]. intros H. apply Hb.
    apply Forall_app in H. destruct H as [_ H].
    apply Forall_app in H. destruct H as [_ H].
    apply Forall_app in H. tauto. }
  assert (Hgood : all_fit filters ->
                  result (uiSaveFile2 parent filters) w <> None
                  /\ Forall in_bounds (trace (uiSaveFile2 parent filters) w)).
  { intros Hfit.
    destruct (uiSaveFile2_filter_calls parent filters w Hfit)
      as (Hr & _ & _ & _ & _ & Hb). now split. }
  assert (Hshown : shown (next_object w) (trace (uiSaveFile2 parent filters) w)
                   <-> result (uiSaveFile2 parent filters) w <> None).
  { unfold uiSaveFile2.
    rewrite windowWindow_trace, windowWindow_result, shown_after_handle.
    apply filedialog_shown. }
  rewrite Hshown. tauto.
Qed.

Lemma dialog_reached_iff_all_fit_witness :
  all_defined [images; all_files]
  /\ (all_fit [images; all_files]
      <-> shown 1%nat (trace (uiSaveFile2 None [images; all_files]) cancelling)).
Proof.
  assert (H : all_defined [images; all_files])
    by (repeat constructor; unfold size_defined; vm_compute; discriminate).
  split; [exact H|].
  destruct (dialog_reached_iff_all_fit None [images; all_files] cancelling H)
    as (_ & H2 & _).
  exact H2.
Defined.

(** ** How a dialog ends *)

Lemma run_calls_loop l t :
  Forall (fun c => loop_call c = true) l -> run_calls (l ++ t) = run_calls t.
Proof.
  induction 1 as [|c l Hc _ IH]; [reflexivity|].
  destruct c; cbn in *; try discriminate; exact IH.
Qed.

Lemma destroy_calls_loop l t :
  Forall (fun c => loop_call c = true) l ->
  destroy_calls (l ++ t) = destroy_calls t.
Proof.
  induction 1 as [|c l Hc _ IH]; [reflexivity|].
  destruct c; cbn in *; try discriminate; exact IH.
Qed.

Lemma filedialog_closes p mode confirm filters w :
  result (filedialog p mode confirm filters) w <> None ->
  closes (next_object w)
    (if response w =? GTK_RESPONSE_ACCEPT
     then [gtk_file_chooser_get_filename (next_object w)] else [])
    (trace (filedialog p mode confirm filters) w).
Proof.
  rewrite filedialog_result, filedialog_trace.
  pose proof (filedialog_filters_calls (next_object w) filters
                {| pattern := None; pattern_cap := 0 |}
                {| next_object := S (next_object w); response := response w;
                   filename := filename w; fresh_memory := fresh_memory w |})
    as Hloop.
  destruct (result _ _) as [buf|]; [intros _ | congruence].
  unfold closes. cbn [app before_run run_calls destroy_calls].
  rewrite (before_run_loop _ _ _ Hloop), (run_calls_loop _ _ Hloop),
    (destroy_calls_loop _ _ Hloop).
  destruct (pattern buf), (response w =? GTK_RESPONSE_ACCEPT);
    cbn [app before_run run_calls destroy_calls];
    rewrite Nat.eqb_refl; rewrite <- ?app_assoc; cbn [app];
    repeat split; rewrite ?app_nil_r; reflexivity.
Qed.

Lemma closes_after_handle d tail (parent : option uiWindow) log :
  closes d tail log ->
  closes d tail
    (match parent with Some win => [uiControlHandle win] | None => [] end
     ++ log).
Proof.
  destruct parent as [win|]; [|trivial].
  intros (E & R & D). unfold closes. cbn. now rewrite <- E.
Qed.

(** X1. Every dialog that is shown ends the same way on every exit path: it
    is run exactly once, after all other calls, and destroyed exactly once,
    as the very last call; between the two nothing happens but, for a file
    dialog that was accepted, the one query for the filename.  The three
    operations without filters always get there, [uiSaveFile2] whenever its
    filter loops come to an end, the message boxes always. *)
Theorem every_dialog_is_run_once_and_destroyed_last
    (parent : option uiWindow) (w : world) :
  let d := next_object w in
  let query :=
    if response w =? GTK_RESPONSE_ACCEPT
    then [gtk_file_chooser_get_filename d] else [] in
  closes d query (trace (uiOpenFile parent) w)
  /\ closes d query (trace (uiOpenFolder parent) w)
  /\ closes d query (trace (uiSaveFile parent) w)
  /\ (forall filters,
        result (uiSaveFile2 parent filters) w <> None ->
        closes d query (trace (uiSaveFile2 parent filters) w))
  /\ (forall title description,
        closes d [] (trace (uiMsgBox parent title description) w))
  /\ (forall title description,
        closes d [] (trace (uiMsgBoxError parent title description) w)).
Proof.
  cbv zeta.
  assert (F : forall mode confirm,
             closes (next_object w)
               (if response w =? GTK_RESPONSE_ACCEPT
                then [gtk_file_chooser_get_filename (next_object w)] else [])
               (trace (bind (windowWindow parent)
                         (fun p => filedialog p mode confirm [])) w)).
  { intros mode confirm. rewrite windowWindow_trace.
    apply closes_after_handle, filedialog_closes.
    rewrite (filedialog_fitting _ _ _ []) by constructor. discriminate. }
  split; [apply F|]. split; [apply F|]. split; [apply F|].
  split; [|split].
  - intros filters H. unfold uiSaveFile2 in *.
    rewrite windowWindow_result in H. rewrite windowWindow_trace.
    now apply closes_after_handle, filedialog_closes.
  - intros title description. unfold uiMsgBox. rewrite windowWindow_trace.
    apply closes_after_handle. unfold closes. cbn.
    rewrite Nat.eqb_refl. repeat split.
  - intros title description. unfold uiMsgBoxError.
    rewrite windowWindow_trace.
    apply closes_after_handle. unfold closes. cbn.
    rewrite Nat.eqb_refl. repeat split.
Qed.

Lemma every_dialog_is_run_once_and_destroyed_last_witness :
  result (uiSaveFile2 None [images; all_files]) (accepting (lit "/tmp/a.png"))
  <> None
  /\ closes 1%nat [gtk_file_chooser_get_filename 1%nat]
       (trace (uiSaveFile2 None [images; all_files])
          (accepting (lit "/tmp/a.png"))).
Proof.
  assert (H : result (uiSaveFile2 None [images; all_files])
                (accepting (lit "/tmp/a.png")) <> None) by discriminate.
  split; [exact H|].
  destruct (every_dialog_is_run_once_and_destroyed_last None
              (accepting (lit "/tmp/a.png"))) as (_ & _ & _ & H4 & _).
  exact (H4 [images; all_files] H).
Defined.

(** ** What comes back *)

(** X5. With the same response and the same filename reported, the four
    file operations return the same thing: the reported path when the
    dialog was accepted (NULL if the toolkit reported none), NULL otherwise.
    Neither the parent, nor the mode, nor the filters change the result:
    the path is not checked against the filters. *)
Theorem file_dialogs_return_what_the_toolkit_reports
    (parent : option uiWindow) (w : world) :
  let r := Some (if response w =? GTK_RESPONSE_ACCEPT
                 then filename w else None) in
  result (uiOpenFile parent) w = r
  /\ result (uiOpenFolder parent) w = r
  /\ result (uiSaveFile parent) w = r
  /\ (forall filters,
        all_fit filters -> result (uiSaveFile2 parent filters) w = r).
Proof.
  cbv zeta.
  unfold uiOpenFile, uiOpenFolder, uiSaveFile, uiSaveFile2.
  rewrite !windowWindow_result.
  rewrite !(filedialog_fitting _ _ _ []) by constructor.
  repeat split. intros filters Hfit.
  now rewrite windowWindow_result, (filedialog_fitting _ _ _ _ _ Hfit).
Qed.

Lemma file_dialogs_return_what_the_toolkit_reports_witness :
  all_fit [images; all_files]
  /\ result (uiSaveFile2 (Some main_window) [images; all_files])
       (accepting (lit "/tmp/notes.txt"))
     = Some (Some (lit "/tmp/notes.txt")).
Proof.
  assert (H : all_fit [images; all_files])
    by (repeat constructor; unfold fits; vm_compute; discriminate).
  split; [exact H|].
  destruct (file_dialogs_return_what_the_toolkit_reports (Some main_window)
              (accepting (lit "/tmp/notes.txt"))) as (_ & _ & _ & H4).
  exact (H4 [images; all_files] H).
Defined.

(** ** Filter objects *)

(** X6. For filters that fit, every filter of the list, also one without
    extensions, gets a filter object of its own: as many objects as
    filters, all different, none of them the dialog, and each labelled
    once, with the name of its filter, in the order of the list. *)
Theorem every_filter_gets_its_own_labelled_object
    (parent : option uiWindow) (filters : list uiFileTypeFilter) (w : world) :
  all_fit filters ->
  let log := trace (uiSaveFile2 parent filters) w in
  length (filter_objects log) = length filters
  /\ NoDup (filter_objects log)
  /\ ~ In (next_object w) (filter_objects log)
  /\ name_calls log
     = combine (filter_objects log) (map (fun f => cstr (name f)) filters).
Proof.
  intros Hfit log. subst log.
  destruct (uiSaveFile2_filter_calls parent filters w Hfit)
    as (_ & -> & -> & _).
  split; [apply length_seq|]. split; [apply seq_NoDup|].
  split; [|reflexivity].
  rewrite in_seq. lia.
Qed.

Lemma every_filter_gets_its_own_labelled_object_witness :
  all_fit [images; all_files]
  /\ name_calls (trace (uiSaveFile2 None [images; all_files]) cancelling)
     = [(2%nat, lit "Images"); (3%nat, lit "All files")].
Proof.
  assert (H : all_fit [images; all_files])
    by (repeat constructor; unfold fits; vm_compute; discriminate).
  split; [exact H|].
  destruct (every_filter_gets_its_own_labelled_object None
              [images; all_files] cancelling H) as (_ & _ & _ & H4).
  exact H4.
Defined.

Lemma entries_of_one_filter fc g h (exts : list cstring) :
  filter (fun e : handle * handle => Nat.eqb (snd e) h) (map (fun _ => (fc, g)) exts)
  = if Nat.eqb g h then map (fun _ => (fc, g)) exts else [].
Proof.
  induction exts as [|e exts IH]; cbn [map filter snd].
  - now destruct (Nat.eqb g h).
  - rewrite IH. now destruct (Nat.eqb g h).
Qed.

Lemma entries_made_above fc g h filters :
  (h < g)%nat ->
  filter (fun e : handle * handle => Nat.eqb (snd e) h) (entries_made fc g filters) = [].
Proof.
  revert g. induction filters as [|f rest IH]; intros g Hlt; [reflexivity|].
  cbn [entries_made]. rewrite filter_app, entries_of_one_filter.
  destruct (Nat.eqb_spec g h); [lia|].
  apply IH. lia.
Qed.

Lemma entries_made_count fc filters : forall g i f,
  nth_error filters i = Some f ->
  length (filter (fun e : handle * handle => Nat.eqb (snd e) (g + i)%nat)
            (entries_made fc g filters))
  = length (extensions f).
Proof.
  induction filters as [|f0 rest IH]; intros g i f Hi;
    [destruct i; discriminate|].
  cbn [entries_made]. rewrite filter_app, entries_of_one_filter, length_app.
  destruct i as [|i]; cbn [nth_error] in Hi.
  - injection Hi as ->. rewrite Nat.add_0_r, Nat.eqb_refl.
    rewrite entries_made_above by lia. rewrite length_map. cbn [length]. lia.
  - destruct (Nat.eqb_spec g (g + S i)); [lia|].
    replace (g + S i)%nat with (S g + i)%nat by lia.
    now rewrite (IH (S g) i f Hi).
Qed.

Lemma entries_made_chooser fc g filters :
  Forall (fun e : handle * handle => fst e = fc) (entries_made fc g filters).
Proof.
  revert g. induction filters as [|f rest IH]; intros g; [constructor|].
  cbn [entries_made]. apply Forall_app. split; [|apply IH].
  apply Forall_forall. intros e He. apply in_map_iff in He.
  now destruct He as (? & <- & _).
Qed.

(** X7. For filters that fit, the object of each filter is handed to the
    chooser once for each of its extensions: the [i]-th filter's object is
    added as many times as that filter has extensions (so not at all when
    it has none), always to the dialog of the call, and the total number of
    [gtk_file_chooser_add_filter] calls is the number of extensions of the
    whole list. *)
Theorem filter_is_added_once_per_extension
    (parent : option uiWindow) (filters : list uiFileTypeFilter) (w : world)
    (i : nat) (f : uiFileTypeFilter) :
  all_fit filters ->
  nth_error filters i = Some f ->
  let log := trace (uiSaveFile2 parent filters) w in
  nth_error (filter_objects log) i = Some (S (next_object w) + i)%nat
  /\ times_added (S (next_object w) + i)%nat log = length (extensions f)
  /\ Forall (fun e => fst e = next_object w) (entry_calls log)
  /\ length (entry_calls log) = length (all_extensions filters).
Proof.
  intros Hfit Hi log. subst log. unfold times_added.
  destruct (uiSaveFile2_filter_calls parent filters w Hfit)
    as (_ & -> & _ & _ & -> & _).
  split; [|split; [|split]].
  - rewrite nth_error_seq.
    assert (i < length filters)%nat by (apply nth_error_Some; congruence).
    destruct (Nat.ltb_spec i (length filters)); [reflexivity | lia].
  - now apply entries_made_count.
  - apply entries_made_chooser.
  - apply entries_made_length.
Qed.

Lemma filter_is_added_once_per_extension_witness :
  all_fit [images; all_files]
  /\ nth_error [images; all_files] 0%nat = Some images
  /\ times_added 2%nat
       (trace (uiSaveFile2 None [images; all_files]) cancelling) = 2%nat.
Proof.
  assert (H : all_fit [images; all_files])
    by (repeat constructor; unfold fits; vm_compute; discriminate).
  assert (H0 : nth_error [images; all_files] 0%nat = Some images)
    by reflexivity.
  split; [exact H|]. split; [exact H0|].
  destruct (filter_is_added_once_per_extension None [images; all_files]
              cancelling 0%nat images H H0) as (_ & H2 & _).
  exact H2.
Defined.

(** ** What newly allocated memory holds *)

Lemma format_into_alike p p' ext w w' :
  block_size p = block_size p' ->
  trace (format_into p ext) w = trace (format_into p' ext) w'
  /\ match result (format_into p ext) w, result (format_into p' ext) w' with
     | Some q, Some q' => length q = length q' /\ cstr q = cstr q'
     | None, None => True
     | _, _ => False
     end.
Proof.
  intros Hsize. pose proof (length_formatted_pos ext) as Hpos.
  unfold format_into.
  destruct p as [b|], p' as [b'|]; cbn [block_size] in Hsize.
  - rewrite Hsize.
    destruct (Nat.leb_spec (length (formatted ext)) (length b')) as [Hle|Hgt].
    + run. split; [reflexivity|].
      rewrite !length_overwritten, !cstr_formatted by lia. now split.
    + split; reflexivity.
  - destruct (Nat.leb_spec (length (formatted ext)) (length b)); [lia|].
    rewrite Hsize. split; reflexivity.
  - destruct (Nat.leb_spec (length (formatted ext)) (length b')); [lia|].
    rewrite <- Hsize. split; reflexivity.
  - split; reflexivity.
Qed.

Lemma filedialog_extensions_alike fc g exts : forall buf buf' w w',
  same_shape buf buf' ->
  trace (filedialog_extensions fc g exts buf) w
  = trace (filedialog_extensions fc g exts buf') w'
  /\ match result (filedialog_extensions fc g exts buf) w,
           result (filedialog_extensions fc g exts buf') w' with
     | Some b, Some b' => same_shape b b'
     | None, None => True
     | _, _ => False
     end.
Proof.
  induction exts as [|ext rest IH]; intros buf buf' w w' Hs.
  - split; [reflexivity | exact Hs].
  - destruct Hs as (Hcap & Hsize & Hnone).
    cbn [filedialog_extensions].
    destruct (int_add 3 (int_wrap (strlen ext))) as [size|]; run;
      [|split; reflexivity].
    rewrite <- Hcap.
    destruct (_ >? _); run.
    + set (b1 := map _ _). set (b1' := map _ _).
      assert (Hb : block_size (Some b1) = block_size (Some b1'))
        by (subst b1 b1'; cbn [block_size];
            now rewrite !length_map, !length_seq).
      destruct (format_into_alike (Some b1) (Some b1') ext w w' Hb)
        as [Ht Hr].
      rewrite Hsize, Ht, !format_into_after.
      destruct (result (format_into (Some b1) ext) w) as [q|],
               (result (format_into (Some b1') ext) w') as [q'|];
        try contradiction; [|split; reflexivity].
      destruct Hr as [Hlen Hstr]. run. rewrite Hstr.
      destruct (IH {| pattern := Some q; pattern_cap := size |}
                   {| pattern := Some q'; pattern_cap := size |}
                   w w') as [Ht' Hr'].
      { split; [reflexivity|]. split; [exact Hlen|]. split; discriminate. }
      rewrite Ht'. split; [reflexivity | exact Hr'].
    + destruct (format_into_alike (pattern buf) (pattern buf') ext w w' Hsize)
        as [Ht Hr].
      rewrite Ht, !format_into_after.
      destruct (result (format_into (pattern buf) ext) w) as [q|],
               (result (format_into (pattern buf') ext) w') as [q'|];
        try contradiction; [|split; reflexivity].
      destruct Hr as [Hlen Hstr]. run. rewrite Hstr, <- Hcap.
      destruct (IH {| pattern := Some q; pattern_cap := pattern_cap buf |}
                   {| pattern := Some q'; pattern_cap := pattern_cap buf |}
                   w w') as [Ht' Hr'].
      { split; [reflexivity|]. split; [exact Hlen|]. split; discriminate. }
      rewrite Ht'. split; [reflexivity | exact Hr'].
Qed.

Lemma filedialog_filters_alike fc filters : forall buf buf' w w',
  same_shape buf buf' -> next_object w = next_object w' ->
  trace (filedialog_filters fc filters buf) w
  = trace (filedialog_filters fc filters buf') w'
  /\ match result (filedialog_filters fc filters buf) w,
           result (filedialog_filters fc filters buf') w' with
     | Some b, Some b' => same_shape b b'
     | None, None => True
     | _, _ => False
     end.
Proof.
  induction filters as [|f rest IH]; intros buf buf' w w' Hs Hn.
  - split; [reflexivity | exact Hs].
  - cbn [filedialog_filters]. run. rewrite !filedialog_extensions_after.
    rewrite <- Hn.
    set (w1 := {| next_object := S (next_object w); response := response w;
                  filename := filename w; fresh_memory := fresh_memory w |}).
    set (w1' := {| next_object := S (next_object w);
                   response := response w'; filename := filename w';
                   fresh_memory := fresh_memory w' |}).
    destruct (filedialog_extensions_alike fc (next_object w) (extensions f)
                buf buf' w1 w1' Hs) as [Ht Hr].
    rewrite Ht.
    destruct (result (filedialog_extensions fc (next_object w) (extensions f)
                        buf) w1) as [b|],
             (result (filedialog_extensions fc (next_object w) (extensions f)
                        buf') w1') as [b'|];
      try contradiction; [|split; reflexivity].
    destruct (IH b b' w1 w1' Hr eq_refl) as [Ht' Hr'].
    rewrite Ht'. split; [reflexivity | exact Hr'].
Qed.

(** X8. What newly allocated memory happens to hold never shows.  In two
    worlds where the toolkit and the user behave alike, [uiSaveFile2] makes
    the same calls with the same arguments and returns the same result,
    whatever bytes the allocator hands out: no call ever receives bytes of
    the pattern buffer that the code has not written itself. *)
Theorem fresh_memory_never_shows
    (parent : option uiWindow) (filters : list uiFileTypeFilter)
    (w w' : world) :
  same_user w w' ->
  trace (uiSaveFile2 parent filters) w = trace (uiSaveFile2 parent filters) w'
  /\ result (uiSaveFile2 parent filters) w
     = result (uiSaveFile2 parent filters) w'.
Proof.
  intros (Hn & Hr & Hf). unfold uiSaveFile2.
  rewrite !windowWindow_trace, !windowWindow_result, !filedialog_trace,
    !filedialog_result.
  rewrite <- Hn, <- Hr, <- Hf.
  destruct (filedialog_filters_alike (next_object w) filters
              {| pattern := None; pattern_cap := 0 |}
              {| pattern := None; pattern_cap := 0 |}
              {| next_object := S (next_object w); response := response w;
                 filename := filename w; fresh_memory := fresh_memory w |}
              {| next_object := S (next_object w); response := response w;
                 filename := filename w; fresh_memory := fresh_memory w' |})
    as [Ht Hres]; [repeat split | reflexivity |].
  rewrite Ht.
  destruct (result _ _) as [b|], (result _ _) as [b'|];
    try contradiction; [|split; reflexivity].
  destruct Hres as (_ & _ & Hnone). split; [|reflexivity].
  do 3 f_equal.
  destruct (pattern b) as [q|], (pattern b') as [q'|]; try reflexivity.
  - assert (H : Some q = None) by (apply Hnone; reflexivity). discriminate.
  - assert (H : Some q' = None) by (apply Hnone; reflexivity). discriminate.
Qed.

Lemma fresh_memory_never_shows_witness :
  same_user cancelling cancelling_dirty
  /\ trace (uiSaveFile2 None [images; all_files]) cancelling
     = trace (uiSaveFile2 None [images; all_files]) cancelling_dirty.
Proof.
  assert (H : same_user cancelling cancelling_dirty) by (repeat split).
  split; [exact H|].
  exact (proj1 (fresh_memory_never_shows None [images; all_files]
                  cancelling cancelling_dirty H)).
Defined.

(** ** Buttons *)

Lemma filedialog_buttons p mode confirm filters w :
  chooser_buttons (trace (filedialog p mode confirm filters) w)
  = [(lit "_Cancel", GTK_RESPONSE_CANCEL); (confirm, GTK_RESPONSE_ACCEPT)].
Proof.
  rewrite filedialog_trace. cbn [app chooser_buttons]. do 2 f_equal.
  assert (L : forall l, Forall (fun c => loop_call c = true) l ->
                        forall t, chooser_buttons (l ++ t) = chooser_buttons t).
  { induction 1 as [|c l Hc _ IH]; intros t; [reflexivity|].
    destruct c; cbn in *; try discriminate; apply IH. }
  rewrite L by apply filedialog_filters_calls.
  destruct (result _ _) as [buf|]; [|reflexivity].
  destruct (pattern buf), (response w =? GTK_RESPONSE_ACCEPT); reflexivity.
Qed.

Lemma filedialog_outcome p mode confirm filters w label :
  confirm <> lit "_Cancel" ->
  all_fit filters ->
  In (label, response w)
    (chooser_buttons (trace (filedialog p mode confirm filters) w)) ->
  outcome_of confirm label w (result (filedialog p mode confirm filters) w).
Proof.
  intros Hc Hfit. rewrite filedialog_buttons, (filedialog_fitting _ _ _ _ _ Hfit).
  intros [H|[H|[]]]; injection H as <- Hr; unfold outcome_of.
  - right. rewrite <- Hr. split; [congruence | reflexivity].
  - left. rewrite <- Hr. split; reflexivity.
Qed.

Lemma buttons_after_handle (parent : option uiWindow) log :
  chooser_buttons
    (match parent with Some win => [uiControlHandle win] | None => [] end
     ++ log)
  = chooser_buttons log.
Proof. destruct parent; reflexivity. Qed.

(** X9. Each file dialog has two buttons and each leads where its label
    says.  The response code a button was created with is the one the
    return path tests: when the dialog answers with the code of a button,
    the operation returns the path the toolkit reports if that button is
    the confirming one ([_Open] for the two open dialogs, [_Save] for the
    two save dialogs) and NULL if it is [_Cancel]. *)
Theorem each_button_leads_to_its_outcome
    (parent : option uiWindow) (w : world) (label : cstring) :
  (In (label, response w) (chooser_buttons (trace (uiOpenFile parent) w)) ->
   outcome_of (lit "_Open") label w (result (uiOpenFile parent) w))
  /\ (In (label, response w)
        (chooser_buttons (trace (uiOpenFolder parent) w)) ->
      outcome_of (lit "_Open") label w (result (uiOpenFolder parent) w))
  /\ (In (label, response w) (chooser_buttons (trace (uiSaveFile parent) w)) ->
      outcome_of (lit "_Save") label w (result (uiSaveFile parent) w))
  /\ (forall filters,
        all_fit filters ->
        In (label, response w)
          (chooser_buttons (trace (uiSaveFile2 parent filters) w)) ->
        outcome_of (lit "_Save") label w
          (result (uiSaveFile2 parent filters) w)).
Proof.
  unfold uiOpenFile, uiOpenFolder, uiSaveFile, uiSaveFile2.
  rewrite !windowWindow_trace, !windowWindow_result, !buttons_after_handle.
  split; [|split; [|split]];
    try (apply filedialog_outcome; solve [discriminate | constructor]).
  intros filters Hfit.
  rewrite windowWindow_trace, windowWindow_result, buttons_after_handle.
  apply filedialog_outcome; [discriminate | assumption].
Qed.

Lemma each_button_leads_to_its_outcome_witness :
  all_fit [images; all_files]
  /\ In (lit "_Save", response (accepting (lit "/tmp/a.png")))
       (chooser_buttons
          (trace (uiSaveFile2 None [images; all_files])
             (accepting (lit "/tmp/a.png"))))
  /\ outcome_of (lit "_Save") (lit "_Save") (accepting (lit "/tmp/a.png"))
       (result (uiSaveFile2 None [images; all_files])
          (accepting (lit "/tmp/a.png"))).
Proof.
  assert (H : all_fit [images; all_files])
    by (repeat constructor; unfold fits; vm_compute; discriminate).
  assert (B : In (lit "_Save", response (accepting (lit "/tmp/a.png")))
                (chooser_buttons
                   (trace (uiSaveFile2 None [images; all_files])
                      (accepting (lit "/tmp/a.png")))))
    by (vm_compute; right; left; reflexivity).
  split; [exact H|]. split; [exact B|].
  destruct (each_button_leads_to_its_outcome None
              (accepting (lit "/tmp/a.png")) (lit "_Save"))
    as (_ & _ & _ & H4).
  exact (H4 [images; all_files] H B).
Defined.
